(** * Mahalaxmi-Enterprises: candle aggregation and signal pipeline

    A shallow embedding of the streaming scripts of the repository:

    - [LiveScanner]     : live_scanner.js  ([TechAnalysis], [MarketManager])
    - [OandaStreamer]   : oanda_streamer.js ([getM5BucketStart], [processLine])
    - [BinanceStreamer] : the Binance kline streamer (message handler)
    - [WebhookScanner]  : the risk block of [SignalEngine.process]

    Conventions of the embedding.

    - A JavaScript number holding a price is an exact rational ([Q]); the
      rounding of IEEE doubles is not modelled.  [x.toFixed(5)] followed by
      [parseFloat] is rounding to the nearest multiple of 10^-5, ties away
      from zero ([round5]).  The properties of the price levels are
      therefore stated as order relations between the values the program
      computes (stop, entry, targets), which the monotone rounding of
      doubles preserves; identities between a level and a closed formula
      hold in the exact model only and stay in auxiliary lemmas.
    - A [Date] is its epoch value in milliseconds ([Z]).  An ISO-8601 string
      produced by [toISOString] is identified with the instant it prints
      (the printing is injective), so [!==] and [Set.has] on such strings
      compare instants and [new Date(a.time) - new Date(b.time)] is the
      difference of instants.  Time strings that reach a buffer from a
      warm-up response are taken to be in that same canonical form.
    - [setMinutes] works on local time; the local offset from UTC is a
      parameter [tz] of the model and is constant (no change of daylight
      saving time inside a run).
    - [console.log(JSON.stringify(o))] appends the record [o] to the list of
      emitted outputs returned by the function. *)

From Stdlib Require Import ZArith QArith Qabs Qminmax Qround Lqa Lia.
From Stdlib Require Import List String Ascii DecimalString.
From stdpp Require Import gmap strings list sorting.

Local Open Scope Z_scope.
Local Open Scope Q_scope.

(** ** Numbers *)

(** [x < y] and [x > y] on JavaScript numbers, as booleans. *)
Definition Qltb (x y : Q) : bool := negb (Qle_bool y x).
Definition Qgtb (x y : Q) : bool := Qltb y x.

(** [null] coerced by ToNumber in [<], [>] and [*]: it reads as [+0]. *)
Definition toNumber (o : option Q) : Q :=
  match o with Some x => x | None => 0 end.

(** [parseFloat(x.toFixed(5))]: nearest multiple of 10^-5, ties to the
    larger magnitude; [toFixed] treats the sign separately. *)
Definition round5pos (x : Q) : Q :=
  Qmake (Qfloor (x * 100000 + (1 # 2))) 100000.
Definition round5 (x : Q) : Q :=
  if Qltb x 0 then - round5pos (- x) else round5pos x.

(** [`${n}`] for a non-negative integer. *)
Definition string_of_nat (n : nat) : string :=
  NilEmpty.string_of_uint (Nat.to_uint n).

(** [a[i]] for a possibly negative or out-of-range index: [undefined] is
    [None]. *)
Definition idx {A} (l : list A) (i : Z) : option A :=
  if (i <? 0)%Z then None else l !! Z.to_nat i.

(** The last [n] elements of an array (all of them when the array is
    shorter, none for [n = 0]). *)
Definition slice_last {A} (n : nat) (l : list A) : list A :=
  drop (length l - n)%nat l.

(** [a.slice(-n)]: the last [n] elements for [n > 0]; [-0] is [0], so
    [a.slice(-0)] is the whole array. *)
Definition slice_neg {A} (n : nat) (l : list A) : list A :=
  match n with
  | O => l
  | S _ => slice_last n l
  end.

(** [a.slice(-n, -1)]: from the start index of [a.slice(-n)] up to, and
    without, the final element. *)
Definition slice_last_but_one {A} (n : nat) (l : list A) : list A :=
  let start := match n with O => O | S _ => (length l - n)%nat end in
  take (length l - 1 - start)%nat (drop start l).

(** [Math.max(...xs)] and [Math.min(...xs)]; [None] stands for the
    [-Infinity] (resp. [+Infinity]) returned on no arguments. *)
Definition max_list (xs : list Q) : option Q :=
  match xs with
  | [] => None
  | x :: xs' => Some (fold_left Qmax xs' x)
  end.
Definition min_list (xs : list Q) : option Q :=
  match xs with
  | [] => None
  | x :: xs' => Some (fold_left Qmin xs' x)
  end.

(** ** live_scanner.js *)

Module LiveScanner.

(** A closed or in-progress candle [{time, open, high, low, close}]. *)
Record Candle := mkCandle {
  time : Z;
  open : Q;
  high : Q;
  low : Q;
  close : Q
}.

Inductive Pattern := BULLISH | BEARISH | NEUTRAL.
Inductive Sweep := BEARISH_SWEEP | BULLISH_SWEEP | NO_SWEEP.
Inductive Direction := BUY | SELL | NONE.

(** *** class TechAnalysis *)

(** [period] is a positive integer at every call site (20 and 200).  For
    [period = 0] the source divides by zero and returns [Infinity] or [NaN],
    which have no counterpart in [Q]: the properties of [sma] below are
    stated for [period > 0]. *)
Definition sma (data : list Q) (period : nat) : option Q :=
  if (length data <? period)%nat then None
  else
    let slice := slice_neg period data in
    let sum := fold_left Qplus slice 0 in
    Some (sum / inject_Z (Z.of_nat period)).

Definition true_range (c prev : Candle) : Q :=
  Qmax (Qmax (high c - low c) (Qabs (high c - close prev)))
       (Qabs (low c - close prev)).

(** The [for] loop of [atr]: [n] iterations starting at index [i]. *)
Fixpoint atr_loop (candles : list Candle) (i n : nat) (trSum : Q) : option Q :=
  match n with
  | O => Some trSum
  | S n' =>
      c ← candles !! i;
      prev ← idx candles (Z.of_nat i - 1);
      atr_loop candles (S i) n' (trSum + true_range c prev)
  end.

Definition atr (candles : list Candle) (period : nat) : option Q :=
  if (length candles <? period + 1)%nat then None
  else
    trSum ← atr_loop candles (length candles - period) period 0;
    Some (trSum / inject_Z (Z.of_nat period)).

Definition isPinBarBullish (current : Candle) : bool :=
  let bodySize := Qabs (close current - open current) in
  let wickTop := high current - Qmax (open current) (close current) in
  let wickBottom := Qmin (open current) (close current) - low current in
  Qgtb wickBottom (bodySize * 2) && Qltb wickTop bodySize.

Definition isPinBarBearish (current : Candle) : bool :=
  let bodySize := Qabs (close current - open current) in
  let wickTop := high current - Qmax (open current) (close current) in
  let wickBottom := Qmin (open current) (close current) - low current in
  Qgtb wickTop (bodySize * 2) && Qltb wickBottom bodySize.

Definition isBullishEngulfing (current prev : Candle) : bool :=
  Qgtb (close current) (open current) && Qltb (close prev) (open prev)
  && Qgtb (close current) (open prev) && Qltb (open current) (close prev).

Definition isBearishEngulfing (current prev : Candle) : bool :=
  Qltb (close current) (open current) && Qgtb (close prev) (open prev)
  && Qltb (close current) (close prev) && Qgtb (open current) (open prev).

(** [None] is the TypeError raised on reading a field of [undefined]: of
    [current] when the array is empty, of [prev] when the array holds one
    candle and an engulfing test gets past its first conjunct.  [&&] is
    lazy, so [prev.close] is read only behind
    [current.close > current.open] (resp. [<]); both engulfing tests are
    evaluated before the first [if]. *)
Definition detectPattern (candles : list Candle) : option Pattern :=
  current ← idx candles (Z.of_nat (length candles) - 1);
  let prev := idx candles (Z.of_nat (length candles) - 2) in
  bullishEngulfing ←
    (if Qgtb (close current) (open current)
     then p ← prev; Some (isBullishEngulfing current p)
     else Some false);
  bearishEngulfing ←
    (if Qltb (close current) (open current)
     then p ← prev; Some (isBearishEngulfing current p)
     else Some false);
  Some (if isPinBarBullish current || bullishEngulfing
        then BULLISH
        else if isPinBarBearish current || bearishEngulfing
        then BEARISH
        else NEUTRAL).

Definition detectSweep (candles : list Candle) (lookback : nat) : option Sweep :=
  current ← idx candles (Z.of_nat (length candles) - 1);
  let window := slice_last_but_one lookback candles in
  let prevHigh := max_list (map high window) in
  let prevLow := min_list (map low window) in
  let bearish :=
    match prevHigh with
    | Some ph => Qgtb (high current) ph && Qltb (close current) ph
    | None => false
    end in
  let bullish :=
    match prevLow with
    | Some pl => Qltb (low current) pl && Qgtb (close current) pl
    | None => false
    end in
  Some (if bearish then BEARISH_SWEEP
        else if bullish then BULLISH_SWEEP
        else NO_SWEEP).

(** *** Emitted records *)

Record Signal := mkSignal {
  symbol : string;
  timeframe : string;
  trend : string;
  signal : Direction;
  entry_price : Q;
  stop_loss : Q;
  tp1 : Q;
  tp2 : Q;
  tp3 : Q;
  strength_score : Z;
  reason : string
}.

(** Either a full signal or the [{symbol, status: "WAIT", trend?, reason}]
    record. *)
Inductive Output :=
| OutSignal (s : Signal)
| OutWait (sym : string) (wait_trend : option string) (wait_reason : string).

(** *** class MarketManager *)

Record MarketManager := mkMarketManager {
  candles : gmap string (list Candle);
  activeCandle : gmap string Candle
}.

Definition constructor : MarketManager := mkMarketManager ∅ ∅.

Definition initSymbol (mm : MarketManager) (sym : string) : MarketManager :=
  match candles mm !! sym with
  | Some _ => mm
  | None => mkMarketManager (<[sym := []]> (candles mm)) (activeCandle mm)
  end.

(** [this.candles[symbol]] once [initSymbol] has run. *)
Definition history (mm : MarketManager) (sym : string) : list Candle :=
  default [] (candles mm !! sym).

(** [Array.prototype.sort] with the comparator
    [new Date(a.time) - new Date(b.time)]: the sort is stable, so the result
    is the one stable insertion sort produces. *)
Fixpoint insert_by_time (c : Candle) (l : list Candle) : list Candle :=
  match l with
  | [] => [c]
  | d :: l' =>
      if (time d <? time c)%Z then d :: insert_by_time c l' else c :: d :: l'
  end.

Definition sort_by_time (l : list Candle) : list Candle :=
  foldr insert_by_time [] l.

Definition addHistory (mm : MarketManager) (sym : string)
    (historyCandles : list Candle) : MarketManager :=
  let mm := initSymbol mm sym in
  let existingTimes : gset Z := list_to_set (map time (history mm sym)) in
  let pushed :=
    history mm sym ++ filter (λ c, time c ∉ existingTimes) historyCandles in
  let sorted := sort_by_time pushed in
  let kept :=
    if (300 <? length sorted)%nat then slice_neg 300 sorted else sorted in
  mkMarketManager (<[sym := kept]> (candles mm)) (activeCandle mm).

(** [m5Start] of [updateTick]: [setMinutes(floor(getMinutes() / 5) * 5, 0, 0)]
    works on local time; [tz] is local time minus UTC in milliseconds. *)
Definition m5Start (tz : Z) (tickTime : Z) : Z :=
  let local := (tickTime + tz)%Z in
  let minutes := ((local / 60000) mod 60)%Z in
  let m5 := (minutes / 5 * 5)%Z in
  (local / 3600000 * 3600000 + m5 * 60000 - tz)%Z.

(** [onCandleClose]: exactly one record is logged on every path; [None] is
    a TypeError escaping from the indicator functions. *)
Definition onCandleClose (sym : string) (hist : list Candle)
    (candle : Candle) : option Output :=
  if (length hist <? 200)%nat then
    Some (OutWait sym None
            ("Not enough data (" +:+ string_of_nat (length hist) +:+ "/200)"))
  else
    let closes := map close hist in
    let sma20 := sma closes 20 in
    let sma200 := sma closes 200 in
    let atr14 := atr hist 14 in
    pattern ← detectPattern hist;
    sweep ← detectSweep hist 10;
    let isUptrend :=
      Qgtb (toNumber sma20) (toNumber sma200)
      && Qgtb (close candle) (toNumber sma200) in
    let isDowntrend :=
      Qltb (toNumber sma20) (toNumber sma200)
      && Qltb (close candle) (toNumber sma200) in
    let isBullish := match pattern with BULLISH => true | _ => false end in
    let isBearish := match pattern with BEARISH => true | _ => false end in
    let bullSweep := match sweep with BULLISH_SWEEP => true | _ => false end in
    let bearSweep := match sweep with BEARISH_SWEEP => true | _ => false end in
    let '(sig, rsn, score) :=
      if isUptrend then
        if isBullish || bullSweep then
          (BUY,
           "Uptrend (Price > SMA200) + " +:+
             (if isBullish then "Bullish Pattern" else "Liquidity Sweep"),
           85%Z)
        else (NONE, "", 0%Z)
      else if isDowntrend then
        if isBearish || bearSweep then
          (SELL,
           "Downtrend (Price < SMA200) + " +:+
             (if isBearish then "Bearish Pattern" else "Liquidity Sweep"),
           85%Z)
        else (NONE, "", 0%Z)
      else (NONE, "", 0%Z) in
    match sig with
    | NONE =>
        Some (OutWait sym
                (Some (if isUptrend then "UP"
                       else if isDowntrend then "DOWN" else "FLAT"))
                "No valid reversal setup")
    | _ =>
        let isBuy := match sig with BUY => true | _ => false end in
        let slDist := toNumber atr14 * (15 # 10) in
        let entry := close candle in
        let sl := if isBuy then entry - slDist else entry + slDist in
        let risk := Qabs (entry - sl) in
        let target (k : Q) :=
          round5 (if isBuy then entry + risk * k else entry - risk * k) in
        Some (OutSignal {|
          symbol := sym;
          timeframe := "M5";
          trend := if isUptrend then "UPTREND" else "DOWNTREND";
          signal := sig;
          entry_price := round5 entry;
          stop_loss := round5 sl;
          tp1 := target (15 # 10);
          tp2 := target 2;
          tp3 := target 3;
          strength_score := score;
          reason := rsn |})
    end.

(** The body of the [if (active && active.time !== m5TimeStr)] block:
    [push] then at most one [shift]. *)
Definition push_shift (hist : list Candle) (active : Candle) : list Candle :=
  let hist := hist ++ [active] in
  if (300 <? length hist)%nat then tail hist else hist.

Definition newCandle (m5Time : Z) (price : Q) : Candle :=
  mkCandle m5Time price price price price.

(** The [else] branch: [close], then [high], then [low]. *)
Definition touch (active : Candle) (price : Q) : Candle :=
  mkCandle (time active) (open active)
    (if Qgtb price (high active) then price else high active)
    (if Qltb price (low active) then price else low active)
    price.

(** [updateTick] returns the manager and the records logged by the call.
    When [onCandleClose] throws, the exception leaves [updateTick] after the
    push: the buffer is updated, the active candle is not. *)
Definition updateTick (tz : Z) (mm : MarketManager) (sym : string)
    (price : Q) (tickTime : Z) : MarketManager * list Output :=
  let mm := initSymbol mm sym in
  let m5TimeStr := m5Start tz tickTime in
  match activeCandle mm !! sym with
  | Some active =>
      if bool_decide (time active ≠ m5TimeStr) then
        let hist := push_shift (history mm sym) active in
        let cs := <[sym := hist]> (candles mm) in
        match onCandleClose sym hist active with
        | Some out =>
            (mkMarketManager cs
               (<[sym := newCandle m5TimeStr price]> (activeCandle mm)),
             [out])
        | None => (mkMarketManager cs (activeCandle mm), [])
        end
      else
        (mkMarketManager (candles mm)
           (<[sym := touch active price]> (activeCandle mm)),
         [])
  | None =>
      (mkMarketManager (candles mm)
         (<[sym := newCandle m5TimeStr price]> (activeCandle mm)),
       [])
  end.

(** Requests the two adapters make of the manager. *)
Inductive Request :=
| AddHistory (sym : string) (historyCandles : list Candle)
| UpdateTick (sym : string) (price : Q) (tickTime : Z).

Definition handle (tz : Z) (mm : MarketManager) (r : Request) : MarketManager :=
  match r with
  | AddHistory sym hs => addHistory mm sym hs
  | UpdateTick sym price t => fst (updateTick tz mm sym price t)
  end.

Definition run (tz : Z) (mm : MarketManager) (rs : list Request) : MarketManager :=
  fold_left (handle tz) rs mm.

End LiveScanner.

(** ** oanda_streamer.js *)

Module OandaStreamer.

(** [activeCandles[symbol]]: [{ open, high, low, close, bucketTime (ms) }]. *)
Record ActiveCandle := mkActive {
  bucketTime : Z;
  open : Q;
  high : Q;
  low : Q;
  close : Q
}.

(** A parsed [PRICE] object; an absent array is the empty list, an absent
    closeout price is [None]. *)
Record PriceData := mkPriceData {
  instrument : string;
  time : Z;
  bids : list Q;
  asks : list Q;
  closeoutBid : option Q;
  closeoutAsk : option Q
}.

(** What [JSON.parse(line)] yields, as far as [processLine] looks at it. *)
Inductive Line :=
| Malformed
| HEARTBEAT
| PRICE (data : PriceData)
| OtherType.

(** The candle record written to standard output. *)
Record Emitted := mkEmitted {
  e_symbol : string;
  e_time : Z;
  e_open : Q;
  e_high : Q;
  e_low : Q;
  e_close : Q
}.

Definition M5_MS : Z := 5 * 60 * 1000.

(** [%] is the truncating remainder. *)
Definition getM5BucketStart (ms : Z) : Z :=
  let remainder := Z.rem ms M5_MS in
  (ms - remainder)%Z.

Definition midPrice (data : PriceData) : option Q :=
  match bids data, asks data with
  | b :: _, a :: _ => Some ((b + a) / 2)
  | _, _ =>
      match closeoutBid data, closeoutAsk data with
      | Some b, Some a => Some ((b + a) / 2)
      | _, _ => None
      end
  end.

Definition closeCandle (sym : string) (candle : ActiveCandle) : Emitted :=
  let closeTime := (bucketTime candle + M5_MS)%Z in
  mkEmitted sym closeTime (open candle) (high candle) (low candle)
    (close candle).

Definition update (candle : ActiveCandle) (price : Q) : ActiveCandle :=
  mkActive (bucketTime candle) (open candle)
    (if Qgtb price (high candle) then price else high candle)
    (if Qltb price (low candle) then price else low candle)
    price.

Definition processLine (activeCandles : gmap string ActiveCandle)
    (line : Line) : gmap string ActiveCandle * list Emitted :=
  match line with
  | PRICE data =>
      let sym := instrument data in
      let bucketStart := getM5BucketStart (time data) in
      match midPrice data with
      | None => (activeCandles, [])
      | Some price =>
          let fresh := mkActive bucketStart price price price price in
          match activeCandles !! sym with
          | Some candle =>
              if (bucketTime candle <? bucketStart)%Z then
                (<[sym := fresh]> activeCandles, [closeCandle sym candle])
              else
                (<[sym := update candle price]> activeCandles, [])
          | None => (<[sym := fresh]> activeCandles, [])
          end
      end
  | _ => (activeCandles, [])
  end.

End OandaStreamer.

(** ** The Binance kline streamer *)

Module BinanceStreamer.

(** The kline payload [message.data.k]: [t] is the kline start time, [T]
    the kline close time, [x] tells whether the kline is closed. *)
Record Kline := mkKline {
  s : string;
  t : Z;
  T : Z;
  o : Q;
  h : Q;
  l : Q;
  c : Q;
  x : bool
}.

Record Emitted := mkEmitted {
  e_symbol : string;
  e_time : Z;
  e_open : Q;
  e_high : Q;
  e_low : Q;
  e_close : Q
}.

Definition upper_ascii (a : ascii) : ascii :=
  let n := nat_of_ascii a in
  if ((97 <=? n) && (n <=? 122))%nat then ascii_of_nat (n - 32) else a.

Fixpoint toUpperCase (str : string) : string :=
  match str with
  | EmptyString => EmptyString
  | String a rest => String (upper_ascii a) (toUpperCase rest)
  end.

(** The [message] handler; [None] is a payload without [data.k]. *)
Definition onMessage (message : option Kline) : list Emitted :=
  match message with
  | None => []
  | Some kline =>
      if x kline then
        [mkEmitted (toUpperCase (s kline)) (T kline)
           (o kline) (h kline) (l kline) (c kline)]
      else []
  end.

End BinanceStreamer.

(** ** The webhook scanner: risk block of [SignalEngine.process] *)

Module WebhookScanner.

Inductive Direction := BUY | SELL.

Record Levels := mkLevels {
  stopLoss : Q;
  risk : Q;
  tp1 : Q;
  tp2 : Q;
  tp3 : Q
}.

(** Step 5 of [process], before the outputs are rounded. *)
Definition riskManagement (direction : Direction) (entryPrice high low : Q)
    : Levels :=
  let '(stopLoss, risk) :=
    match direction with
    | BUY =>
        let stopLoss :=
          if Qle_bool entryPrice low then entryPrice * (9995 # 10000)
          else low in
        (stopLoss, entryPrice - stopLoss)
    | SELL =>
        let stopLoss :=
          if Qle_bool high entryPrice then entryPrice * (10005 # 10000)
          else high in
        (stopLoss, stopLoss - entryPrice)
    end in
  let risk :=
    if Qle_bool risk (1 # 100000) then entryPrice * (5 # 10000) else risk in
  let target (k : Q) :=
    match direction with
    | BUY => entryPrice + risk * k
    | SELL => entryPrice - risk * k
    end in
  mkLevels stopLoss risk (target (15 # 10)) (target 2) (target 3).

End WebhookScanner.

(** ** Invariants and sample inputs *)

Module Invariants.
Import LiveScanner.

(** Every symbol that has an active candle has a history buffer. *)
Definition active_has_buffer (mm : MarketManager) : Prop :=
  forall sym, is_Some (activeCandle mm !! sym) -> is_Some (candles mm !! sym).

(** The history buffer is time-ordered, possibly with repeated bucket
    times. *)
Definition time_ordered (l : list Candle) : Prop :=
  StronglySorted (λ a b, (time a <= time b)%Z) l.

(** The history buffer has strictly increasing (hence unique) bucket
    times. *)
Definition strictly_ordered (l : list Candle) : Prop :=
  StronglySorted (λ a b, (time a < time b)%Z) l.

(** What [addHistory] computes for the symbol's buffer: the merge and sort,
    then the cut to the last 300. *)
Definition merged (hist batch : list Candle) : list Candle :=
  let existingTimes : gset Z := list_to_set (map time hist) in
  sort_by_time (hist ++ filter (λ c, time c ∉ existingTimes) batch).

Definition keep300 (l : list Candle) : list Candle :=
  if (300 <? length l)%nat then slice_neg 300 l else l.

(** No history buffer is longer than the capacity of 300 candles. *)
Definition bounded (mm : MarketManager) : Prop :=
  forall sym, (length (history mm sym) <= 300)%nat.

End Invariants.
Import Invariants.

(** Sample inputs used by the worked examples. *)
Module Samples.
Import LiveScanner.

(** A candle with open = high = low = close = [p] in bucket number [i]. *)
Definition flat (p : Q) (i : nat) : Candle :=
  mkCandle (Z.of_nat i * 300000) p p p p.

(** 300 flat candles in buckets 1 .. 300. *)
Definition ramp300 : list Candle := map (flat 1) (seq 1 300).

(** A full buffer, then ticks in buckets 301, 0 (late) and 302. *)
Definition late_then_full : list Request :=
  [AddHistory "BTCUSDT" ramp300;
   UpdateTick "BTCUSDT" 1 (301 * 300000);
   UpdateTick "BTCUSDT" 1 0].

(** A quiet market: 180 flat candles at 1, 19 flat candles at 2, then a
    candle 2 -> 2.0000001 with a 0.0000003 lower wick (a bullish pin bar). *)
Definition quiet199 : list Candle :=
  map (flat 1) (seq 0 180) ++ map (flat 2) (seq 180 19).

Definition pin : Candle :=
  mkCandle (199 * 300000) 2 (20000001 # 10000000) (19999997 # 10000000)
    (20000001 # 10000000).

Definition quiet200 : list Candle := quiet199 ++ [pin].

(** The same market through the adapters: warm-up with the 199 candles,
    then three ticks that build [pin] in bucket 199. *)
Definition quiet_live : list Request :=
  [AddHistory "SHIBUSDT" quiet199;
   UpdateTick "SHIBUSDT" 2 (199 * 300000 + 5);
   UpdateTick "SHIBUSDT" (19999997 # 10000000) (199 * 300000 + 50);
   UpdateTick "SHIBUSDT" (20000001 # 10000000) (199 * 300000 + 500)].

(** A livelier market: the same 199 candles, then a hammer
    2 -> 2.1 with low 1.7. *)
Definition hammer : Candle :=
  mkCandle (199 * 300000) 2 (21 # 10) (17 # 10) (21 # 10).

Definition swing200 : list Candle := quiet199 ++ [hammer].

End Samples.

(** Where a candle of symbol [sym] can come from, given the requests seen
    so far: a warm-up batch, or a tick whose bucket start it carries. *)
Module Provenance.
Import LiveScanner.

Definition from_tick (tz : Z) (seen : list Request) (sym : string)
    (c : Candle) : Prop :=
  exists price t, UpdateTick sym price t ∈ seen /\ time c = m5Start tz t.

Definition from_batch (seen : list Request) (sym : string) (c : Candle) : Prop :=
  exists batch, AddHistory sym batch ∈ seen /\ c ∈ batch.

Definition stamped (tz : Z) (seen : list Request) (mm : MarketManager) : Prop :=
  forall sym c,
    (c ∈ history mm sym -> from_batch seen sym c \/ from_tick tz seen sym c) /\
    (activeCandle mm !! sym = Some c -> from_tick tz seen sym c).

End Provenance.
Import Provenance.

(** Vocabulary for the properties of the aggregators. *)
Module Aggregation.
Import LiveScanner.

(** An OHLC record whose high and low enclose its open and close. *)
Definition well_formed (c : Candle) : Prop :=
  low c <= open c /\ low c <= close c /\ open c <= high c /\ close c <= high c.

(** A stream of [(price, time)] ticks of one symbol as manager requests. *)
Definition ticks (sym : string) (ps : list (Q * Z)) : list Request :=
  map (λ pt, UpdateTick sym (fst pt) (snd pt)) ps.

(** The symbol a request is about. *)
Definition sym_of (r : Request) : string :=
  match r with
  | AddHistory sym _ => sym
  | UpdateTick sym _ _ => sym
  end.

(** The OANDA streamer run over a sequence of parsed lines, with everything
    it writes to standard output in order. *)
Definition lineStep
    (st : gmap string OandaStreamer.ActiveCandle * list OandaStreamer.Emitted)
    (line : OandaStreamer.Line)
    : gmap string OandaStreamer.ActiveCandle * list OandaStreamer.Emitted :=
  let r := OandaStreamer.processLine (fst st) line in
  (fst r, snd st ++ snd r).

Definition runLines (acs : gmap string OandaStreamer.ActiveCandle)
    (lines : list OandaStreamer.Line)
    : gmap string OandaStreamer.ActiveCandle * list OandaStreamer.Emitted :=
  fold_left lineStep lines (acs, []).

End Aggregation.
Import Aggregation.

(** Invariants of the OANDA streamer's state together with what it has
    written so far. *)
Module StreamerInvariant.
Import OandaStreamer.

Definition ohlc_ok (o h l c : Q) : Prop :=
  l <= o /\ l <= c /\ o <= h /\ c <= h.

Definition of_symbol (sym : string) (out : list Emitted) : list Emitted :=
  filter (λ e, e_symbol e = sym) out.

Record streamer_inv (acs : gmap string ActiveCandle) (out : list Emitted)
    : Prop := mkStreamerInv {
  inv_aligned : forall sym c, acs !! sym = Some c -> (300000 | bucketTime c)%Z;
  inv_ok : forall sym c, acs !! sym = Some c ->
             ohlc_ok (open c) (high c) (low c) (close c);
  inv_behind : forall e, e ∈ out ->
                 exists c, acs !! e_symbol e = Some c /\
                           (e_time e <= bucketTime c)%Z;
  inv_sorted : forall sym,
                 StronglySorted Z.lt (map e_time (of_symbol sym out));
  inv_emitted_ok : forall e, e ∈ out ->
                     (300000 | e_time e)%Z /\
                     ohlc_ok (e_open e) (e_high e) (e_low e) (e_close e)
}.

End StreamerInvariant.
Import StreamerInvariant.

(** ** Line framing of the streamed response

    The ['data'] handlers of oanda_streamer.js and of [startOanda] in
    live_scanner.js:
    [buffer += chunk; lines = buffer.split('\n'); buffer = lines.pop();]
    then every line with [line.trim()] non-empty is handled.  Chunks are
    ASCII text; what is done with a line is a parameter. *)

Module Framing.

Definition newline : ascii := ascii_of_nat 10.

(** [s.split('\n')]: never empty; [''.split('\n')] is [['']]. *)
Fixpoint split_newline (s : string) : list string :=
  match s with
  | EmptyString => [EmptyString]
  | String c r =>
      if Ascii.eqb c newline then EmptyString :: split_newline r
      else match split_newline r with
           | h :: t => String c h :: t
           | [] => [String c EmptyString]
           end
  end.

(** [lines.pop()]: the last element and what is left of the array. *)
Fixpoint pop (l : list string) : list string * string :=
  match l with
  | [] => ([], EmptyString)
  | [x] => ([], x)
  | x :: l' => let '(init, z) := pop l' in (x :: init, z)
  end.

(** White space removed by [trim], within ASCII. *)
Definition is_space (c : ascii) : bool :=
  let n := nat_of_ascii c in
  ((9 <=? n) && (n <=? 13) || (n =? 32))%nat.

(** [!line.trim()]. *)
Fixpoint is_blank (line : string) : bool :=
  match line with
  | EmptyString => true
  | String c r => is_space c && is_blank r
  end.

(** The complete lines in [buffer + chunk] and the new buffer. *)
Definition frame (buffer chunk : string) : list string * string :=
  pop (split_newline (buffer ++ chunk)).

(** The handler: [handleLine] is what the loop body does with a non-blank
    line. *)
Definition onData {S : Type} (handleLine : S -> string -> S)
    (st : string * S) (chunk : string) : string * S :=
  let '(lines, buffer) := frame (fst st) chunk in
  (buffer,
   fold_left (λ s line, if is_blank line then s else handleLine s line)
     lines (snd st)).

(** [lines.join('\n')]. *)
Fixpoint join_newline (l : list string) : string :=
  match l with
  | [] => EmptyString
  | [x] => x
  | x :: l' => x ++ String newline (join_newline l')
  end.

Fixpoint has_newline (s : string) : bool :=
  match s with
  | EmptyString => false
  | String c r => Ascii.eqb c newline || has_newline r
  end.

End Framing.

(** ** The webhook scanner: [SignalEngine.process]

    The alert is taken as the documented template has it: [close], [high],
    [low], [sma20] and [sma200] are JSON numbers when present and [high] and
    [low] are present; text is ASCII. *)

Module SignalEngine.
Import WebhookScanner.

(** [s.includes(sub)]. *)
Fixpoint includes (s sub : string) : bool :=
  if String.prefix sub s then true
  else match s with
       | EmptyString => false
       | String _ r => includes r sub
       end.

(** A number used as a condition: [0] is falsy. *)
Definition truthy (x : Q) : bool := negb (Qeq_bool x 0).

(** [x.toFixed(5)] as text: sign, integer part, five decimals. *)
Definition pad5 (k : nat) : string :=
  let s := string_of_nat k in
  String.concat "" (repeat "0"%string (5 - String.length s)) +:+ s.

Definition toFixed5 (x : Q) : string :=
  let neg := Qltb x 0 in
  let n := Qfloor ((if neg then - x else x) * 100000 + (1 # 2)) in
  (if neg then "-" else "") +:+ string_of_nat (Z.to_nat (n / 100000))
    +:+ "." +:+ pad5 (Z.to_nat (n mod 100000)).

Record Payload := mkPayload {
  symbol : string;
  close : option Q;
  high : Q;
  low : Q;
  sma20 : option Q;
  sma200 : option Q;
  trend : option string;
  reversal_signal : bool;
  pattern_name : option string
}.

Record SignalRecord := mkSignalRecord {
  s_symbol : string;
  s_timeframe : string;
  s_trend : string;
  s_signal : Direction;
  s_entry_price : Q;
  s_stop_loss : Q;
  s_tp1 : Q;
  s_tp2 : Q;
  s_tp3 : Q;
  s_strength_score : Z;
  s_reason : string
}.

Inductive Result :=
| Error (message : string)
| Wait (sym : string) (reason : string)
| Signal (s : SignalRecord).

(** [data.x ? parseFloat(data.x) : null]. *)
Definition optionalNumber (o : option Q) : option Q :=
  match o with
  | Some x => if truthy x then Some x else None
  | None => None
  end.

(** Step 2 of [process]: the trend label, [None] when not valid. *)
Definition trendOf (data : Payload) (close : Q) : option string :=
  match optionalNumber (sma20 data), optionalNumber (sma200 data) with
  | Some s20, Some s200 =>
      if Qgtb close s200 && Qgtb s20 s200 then Some "UPTREND"%string
      else if Qltb close s200 && Qltb s20 s200 then Some "DOWNTREND"%string
      else None
  | _, _ =>
      match trend data with
      | Some tr =>
          if String.eqb tr "" then None
          else
            let up := BinanceStreamer.toUpperCase tr in
            if includes up "BUY" || includes up "UP" then Some "UPTREND"%string
            else if includes up "SELL" || includes up "DOWN"
            then Some "DOWNTREND"%string
            else None
      | None => None
      end
  end.

Definition process (data : Payload) : Result :=
  match close data with
  | None => Error "Invalid Data: Missing symbol or close price"
  | Some close =>
      if String.eqb (symbol data) "" || negb (truthy close) then
        Error "Invalid Data: Missing symbol or close price"
      else
        match trendOf data close with
        | None =>
            Wait (symbol data) "Trend conditions not met (Price/SMA alignment)"
        | Some trend =>
            if negb (reversal_signal data) then
              Wait (symbol data)
                "No Reversal Signal (Pin Bar/Sweep/BOS) detected"
            else
              let direction :=
                if String.eqb trend "UPTREND" then BUY else SELL in
              let entryPrice := close in
              let lv := riskManagement direction entryPrice
                          (high data) (low data) in
              let strengthScore :=
                match optionalNumber (sma20 data),
                      optionalNumber (sma200 data) with
                | Some _, Some _ => 90%Z
                | _, _ => 80%Z
                end in
              let pattern :=
                match pattern_name data with
                | Some p => if String.eqb p "" then "Reversal Pattern"%string
                            else p
                | None => "Reversal Pattern"%string
                end in
              Signal {|
                s_symbol := symbol data;
                s_timeframe := "M5";
                s_trend := trend;
                s_signal := direction;
                s_entry_price := round5 entryPrice;
                s_stop_loss := round5 (stopLoss lv);
                s_tp1 := round5 (tp1 lv);
                s_tp2 := round5 (tp2 lv);
                s_tp3 := round5 (tp3 lv);
                s_strength_score := strengthScore;
                s_reason := trend +:+ " confirmed + " +:+ pattern
                              +:+ " + Risk " +:+ toFixed5 (risk lv)
              |}
        end
  end.

End SignalEngine.

(** * Properties *)

(** ** Numbers and arrays *)

Lemma Qltb_lt x y : Qltb x y = true <-> x < y.
Proof.
  unfold Qltb. rewrite negb_true_iff, <- not_true_iff_false, Qle_bool_iff.
  split; [apply Qnot_le_lt | apply Qlt_not_le].
Qed.

Lemma Qltb_ge x y : Qltb x y = false <-> y <= x.
Proof.
  unfold Qltb. rewrite negb_false_iff. apply Qle_bool_iff.
Qed.

Lemma Qgtb_gt x y : Qgtb x y = true <-> y < x.
Proof. apply Qltb_lt. Qed.

Lemma Qgtb_le x y : Qgtb x y = false <-> x <= y.
Proof. apply Qltb_ge. Qed.

(** The two conditional assignments of the update branches compute the
    running maximum and minimum. *)
Lemma high_update price hi :
  (if Qgtb price hi then price else hi) = Qmax hi price.
Proof.
  unfold Qmax, GenericMinMax.gmax.
  destruct (Qgtb price hi) eqn:E.
  - apply Qgtb_gt in E. rewrite Qlt_alt in E. now rewrite E.
  - apply Qgtb_le in E. rewrite Qle_alt in E.
    destruct (hi ?= price) eqn:C; try reflexivity.
    rewrite <- Qlt_alt in C.
    exfalso. apply (Qlt_irrefl hi). eapply Qlt_le_trans; [exact C|].
    apply Qle_alt. exact E.
Qed.

Lemma low_update price lo :
  (if Qltb price lo then price else lo) = Qmin lo price.
Proof.
  unfold Qmin, GenericMinMax.gmin.
  destruct (Qltb price lo) eqn:E.
  - apply Qltb_lt in E. apply Qgt_alt in E. now rewrite E.
  - apply Qltb_ge in E.
    destruct (lo ?= price) eqn:C; try reflexivity.
    rewrite <- Qgt_alt in C.
    exfalso. apply (Qlt_irrefl lo). eapply Qle_lt_trans; [exact E|exact C].
Qed.

Lemma idx_from_end {A} (l : list A) (k : nat) :
  (1 <= k <= length l)%nat ->
  is_Some (idx l (Z.of_nat (length l) - Z.of_nat k)).
Proof.
  intros Hk. unfold idx.
  destruct (Z.ltb_spec (Z.of_nat (length l) - Z.of_nat k) 0); [lia|].
  apply lookup_lt_is_Some. lia.
Qed.

(** ** The live scanner *)

Section LiveScannerFacts.
Import LiveScanner.
Variable tz : Z.

Lemma history_initSymbol mm sym s :
  history (initSymbol mm sym) s = history mm s.
Proof.
  unfold initSymbol, history.
  destruct (candles mm !! sym) eqn:E; [reflexivity|]. simpl.
  destruct (decide (sym = s)) as [->|Hne].
  - now rewrite lookup_insert_eq, E.
  - now rewrite lookup_insert_ne.
Qed.

Lemma activeCandle_initSymbol mm sym :
  activeCandle (initSymbol mm sym) = activeCandle mm.
Proof. unfold initSymbol. now destruct (candles mm !! sym). Qed.

Lemma candles_initSymbol_insert mm sym hist :
  <[sym := hist]> (candles (initSymbol mm sym)) = <[sym := hist]> (candles mm).
Proof.
  unfold initSymbol. destruct (candles mm !! sym); [reflexivity|]. simpl.
  apply insert_insert_eq.
Qed.

Lemma candles_initSymbol_present mm sym :
  is_Some (candles mm !! sym) -> initSymbol mm sym = mm.
Proof. intros [h Hh]. unfold initSymbol. now rewrite Hh. Qed.

Lemma detectPattern_total hist :
  (2 <= length hist)%nat -> is_Some (detectPattern hist).
Proof.
  intros Hlen. unfold detectPattern.
  destruct (idx_from_end hist 1) as [cur Hcur]; [lia|].
  destruct (idx_from_end hist 2) as [prev Hprev]; [lia|].
  change (Z.of_nat 1) with 1%Z in Hcur. change (Z.of_nat 2) with 2%Z in Hprev.
  rewrite Hcur, Hprev. simpl.
  destruct (Qgtb (close cur) (open cur)), (Qltb (close cur) (open cur));
    simpl; eauto.
Qed.

Lemma detectSweep_total hist lookback :
  (1 <= length hist)%nat -> is_Some (detectSweep hist lookback).
Proof.
  intros Hlen. unfold detectSweep.
  destruct (idx_from_end hist 1) as [cur Hcur]; [lia|].
  change (Z.of_nat 1) with 1%Z in Hcur.
  rewrite Hcur. simpl. eauto.
Qed.

(** [onCandleClose] never throws: every call logs exactly one record. *)
Lemma onCandleClose_total sym hist candle :
  is_Some (onCandleClose sym hist candle).
Proof.
  unfold onCandleClose.
  destruct (Nat.ltb_spec (length hist) 200) as [Hlt|Hge]; [eauto|].
  destruct (detectPattern_total hist) as [p Hp]; [lia|].
  destruct (detectSweep_total hist 10) as [s Hs]; [lia|].
  rewrite Hp, Hs. simpl.
  repeat case_match; eauto.
Qed.

(** A tick in a bucket other than the active candle's closes that candle:
    it is pushed (with at most one shift), evaluated once, and replaced by a
    fresh candle at the tick's bucket. *)
Lemma updateTick_bucket_change mm sym price t active :
  activeCandle mm !! sym = Some active ->
  time active <> m5Start tz t ->
  exists out,
    onCandleClose sym (push_shift (history mm sym) active) active = Some out /\
    updateTick tz mm sym price t =
      (mkMarketManager
         (<[sym := push_shift (history mm sym) active]> (candles mm))
         (<[sym := newCandle (m5Start tz t) price]> (activeCandle mm)),
       [out]).
Proof.
  intros Hact Hne.
  destruct (onCandleClose_total sym (push_shift (history mm sym) active) active)
    as [out Hout].
  exists out. split; [exact Hout|].
  unfold updateTick.
  rewrite activeCandle_initSymbol, Hact, history_initSymbol.
  rewrite bool_decide_eq_true_2 by exact Hne.
  now rewrite Hout, candles_initSymbol_insert.
Qed.

Lemma updateTick_same mm sym price t active :
  activeCandle mm !! sym = Some active ->
  time active = m5Start tz t ->
  updateTick tz mm sym price t =
    (mkMarketManager (candles (initSymbol mm sym))
       (<[sym := touch active price]> (activeCandle mm)), []).
Proof.
  intros Hact Heq. unfold updateTick.
  rewrite activeCandle_initSymbol, Hact.
  rewrite bool_decide_eq_false_2; [reflexivity|]. intros Hne. now apply Hne.
Qed.

Lemma updateTick_first mm sym price t :
  activeCandle mm !! sym = None ->
  updateTick tz mm sym price t =
    (mkMarketManager (candles (initSymbol mm sym))
       (<[sym := newCandle (m5Start tz t) price]> (activeCandle mm)), []).
Proof.
  intros Hact. unfold updateTick.
  now rewrite activeCandle_initSymbol, Hact.
Qed.

End LiveScannerFacts.

Section AggregatorClaims.
Import LiveScanner.

Lemma initSymbol_has_buffer mm sym : is_Some (candles (initSymbol mm sym) !! sym).
Proof.
  unfold initSymbol. destruct (candles mm !! sym) eqn:E; simpl.
  - rewrite E. eauto.
  - rewrite lookup_insert_eq. eauto.
Qed.

Lemma initSymbol_keeps_buffer mm sym s :
  is_Some (candles mm !! s) -> is_Some (candles (initSymbol mm sym) !! s).
Proof.
  unfold initSymbol. destruct (candles mm !! sym) eqn:E; simpl; [tauto|].
  intros Hs. destruct (decide (sym = s)) as [->|Hne].
  - rewrite lookup_insert_eq. eauto.
  - now rewrite lookup_insert_ne.
Qed.

Lemma handle_active_has_buffer tz mm r :
  active_has_buffer mm -> active_has_buffer (handle tz mm r).
Proof.
  intros Hinv. destruct r as [sym hs|sym price t]; simpl.
  - intros s Hs. unfold addHistory in *. simpl in *.
    rewrite activeCandle_initSymbol in Hs. apply Hinv in Hs.
    destruct (decide (sym = s)) as [->|Hne].
    + rewrite lookup_insert_eq. eauto.
    + rewrite lookup_insert_ne by exact Hne. now apply initSymbol_keeps_buffer.
  - intros s. unfold updateTick. rewrite activeCandle_initSymbol.
    assert (Hins : forall (c : Candle) (m : gmap string (list Candle)),
      is_Some (<[sym := c]> (activeCandle mm) !! s) ->
      (forall s', is_Some (candles mm !! s') -> is_Some (m !! s')) ->
      is_Some (m !! sym) -> is_Some (m !! s)).
    { intros c m Hs Hm Hsym. destruct (decide (sym = s)) as [->|Hne]; [exact Hsym|].
      rewrite lookup_insert_ne in Hs by exact Hne. apply Hm, Hinv, Hs. }
    assert (Hpush : forall h s', is_Some (candles mm !! s') ->
      is_Some (<[sym := h]> (candles (initSymbol mm sym)) !! s')).
    { intros h s' Hs'. destruct (decide (sym = s')) as [->|Hne].
      - rewrite lookup_insert_eq. eauto.
      - rewrite lookup_insert_ne by exact Hne. now apply initSymbol_keeps_buffer. }
    repeat case_match; simpl; intros Hs.
    + eapply Hins; [exact Hs|apply Hpush|]. rewrite lookup_insert_eq. eauto.
    + apply Hpush, Hinv, Hs.
    + eapply Hins; [exact Hs| |apply initSymbol_has_buffer].
      intros s'. apply initSymbol_keeps_buffer.
    + eapply Hins; [exact Hs| |apply initSymbol_has_buffer].
      intros s'. apply initSymbol_keeps_buffer.
Qed.

Lemma run_active_has_buffer tz rs mm :
  active_has_buffer mm -> active_has_buffer (run tz mm rs).
Proof.
  revert mm. induction rs as [|r rs IH]; intros mm Hinv; [exact Hinv|].
  simpl. apply IH. now apply handle_active_has_buffer.
Qed.

Lemma constructor_active_has_buffer : active_has_buffer constructor.
Proof. intros sym [c Hc]. simpl in Hc. now rewrite lookup_empty in Hc. Qed.

(** C10. A tick that falls in the bucket of the symbol's active candle only
    touches that candle: high becomes the maximum of the old high and the
    price, low the minimum, close the price; open and bucket time stay; no
    record is logged; the history buffers and the other symbols' active
    candles are as before (on states reachable from a fresh manager the
    whole [candles] map is literally the same). *)
Theorem updateTick_same_bucket_frame tz mm sym price t active :
  activeCandle mm !! sym = Some active ->
  time active = m5Start tz t ->
  let r := updateTick tz mm sym price t in
  snd r = [] /\
  activeCandle (fst r) !! sym =
    Some (mkCandle (time active) (open active)
            (Qmax (high active) price) (Qmin (low active) price) price) /\
  (forall s, s <> sym -> activeCandle (fst r) !! s = activeCandle mm !! s) /\
  (forall s, history (fst r) s = history mm s) /\
  (forall s, s <> sym -> candles (fst r) !! s = candles mm !! s) /\
  (forall rs, mm = run tz constructor rs -> candles (fst r) = candles mm).
Proof.
  intros Hact Heq r. subst r. rewrite (updateTick_same tz mm sym price t active Hact Heq).
  simpl. repeat split.
  - rewrite lookup_insert_eq. unfold touch. now rewrite high_update, low_update.
  - intros s Hs. now rewrite lookup_insert_ne.
  - intros s. apply history_initSymbol.
  - intros s Hs. unfold initSymbol. destruct (candles mm !! sym); [reflexivity|].
    simpl. now rewrite lookup_insert_ne.
  - intros rs Hrs. rewrite candles_initSymbol_present; [reflexivity|].
    assert (Hinv : active_has_buffer mm).
    { rewrite Hrs. apply run_active_has_buffer, constructor_active_has_buffer. }
    apply Hinv. rewrite Hact. eauto.
Qed.

Lemma updateTick_same_bucket_frame_witness :
  let mm := run 0 constructor [UpdateTick "EUR_USD" 5 600001] in
  let r := updateTick 0 mm "EUR_USD" 7 600002 in
  snd r = [] /\
  activeCandle (fst r) !! "EUR_USD" =
    Some (mkCandle 600000 5 (Qmax 5 7) (Qmin 5 7) 7).
Proof.
  intros mm r.
  destruct (updateTick_same_bucket_frame 0 mm "EUR_USD" 7 600002
              (newCandle 600000 5)) as (H1 & H2 & _).
  - vm_compute. reflexivity.
  - vm_compute. reflexivity.
  - split; [exact H1|exact H2].
Defined.

End AggregatorClaims.

(** ** Late ticks *)

Section LateTicks.
Import LiveScanner.

Lemma processLine_not_later acs data price candle :
  OandaStreamer.midPrice data = Some price ->
  acs !! OandaStreamer.instrument data = Some candle ->
  (OandaStreamer.getM5BucketStart (OandaStreamer.time data)
     <= OandaStreamer.bucketTime candle)%Z ->
  OandaStreamer.processLine acs (OandaStreamer.PRICE data) =
    (<[OandaStreamer.instrument data :=
         OandaStreamer.mkActive (OandaStreamer.bucketTime candle)
           (OandaStreamer.open candle)
           (Qmax (OandaStreamer.high candle) price)
           (Qmin (OandaStreamer.low candle) price) price]> acs, []).
Proof.
  intros Hp Hc Hle. unfold OandaStreamer.processLine. rewrite Hp, Hc.
  destruct (Z.ltb_spec (OandaStreamer.bucketTime candle)
              (OandaStreamer.getM5BucketStart (OandaStreamer.time data))); [lia|].
  unfold OandaStreamer.update. now rewrite high_update, low_update.
Qed.

(** C1, as the code has it.  A tick whose bucket is strictly earlier than
    the active candle's bucket is not dropped.  [MarketManager.updateTick]
    handles it like any change of bucket: the active candle is closed
    (pushed on the history buffer, evaluated by [onCandleClose], one record
    logged) and a new active candle opens at the earlier bucket with
    open = high = low = close = price.  [processLine] of the OANDA streamer
    closes nothing and keeps the candle's bucket time and open, but folds
    the price into it: close becomes the price, high and low widen to
    include it. *)
Theorem late_tick_is_processed tz mm sym price t active acs data p candle :
  activeCandle mm !! sym = Some active ->
  (m5Start tz t < time active)%Z ->
  acs !! OandaStreamer.instrument data = Some candle ->
  OandaStreamer.midPrice data = Some p ->
  (OandaStreamer.getM5BucketStart (OandaStreamer.time data)
     < OandaStreamer.bucketTime candle)%Z ->
  (exists out,
     onCandleClose sym (push_shift (history mm sym) active) active = Some out /\
     updateTick tz mm sym price t =
       (mkMarketManager
          (<[sym := push_shift (history mm sym) active]> (candles mm))
          (<[sym := newCandle (m5Start tz t) price]> (activeCandle mm)),
        [out])) /\
  OandaStreamer.processLine acs (OandaStreamer.PRICE data) =
    (<[OandaStreamer.instrument data :=
         OandaStreamer.mkActive (OandaStreamer.bucketTime candle)
           (OandaStreamer.open candle)
           (Qmax (OandaStreamer.high candle) p)
           (Qmin (OandaStreamer.low candle) p) p]> acs, []).
Proof.
  intros Hact Hlt Hc Hp Hb. split.
  - apply updateTick_bucket_change; [exact Hact|lia].
  - apply processLine_not_later; [exact Hp|exact Hc|lia].
Qed.

Lemma late_tick_is_processed_witness :
  let mm := run 0 constructor [UpdateTick "EUR_USD" 5 600001] in
  let acs : gmap string OandaStreamer.ActiveCandle :=
    {[ "EUR_USD" := OandaStreamer.mkActive 600000 5 5 5 5 ]} in
  let data := OandaStreamer.mkPriceData "EUR_USD" 1 [6] [8] None None in
  snd (updateTick 0 mm "EUR_USD" 7 1) =
    [OutWait "EUR_USD" None "Not enough data (1/200)"] /\
  activeCandle (fst (updateTick 0 mm "EUR_USD" 7 1)) !! "EUR_USD" =
    Some (newCandle 0 7) /\
  fst (OandaStreamer.processLine acs (OandaStreamer.PRICE data)) !! "EUR_USD" =
    Some (OandaStreamer.mkActive 600000 5 (Qmax 5 ((6 + 8) / 2))
            (Qmin 5 ((6 + 8) / 2)) ((6 + 8) / 2)).
Proof.
  intros mm acs data.
  destruct (late_tick_is_processed 0 mm "EUR_USD" 7 1 (newCandle 600000 5)
              acs data ((6 + 8) / 2) (OandaStreamer.mkActive 600000 5 5 5 5))
    as [(out & Hout & Hupd) Hline].
  - vm_compute. reflexivity.
  - vm_compute. reflexivity.
  - vm_compute. reflexivity.
  - vm_compute. reflexivity.
  - vm_compute. reflexivity.
  - rewrite Hupd, Hline. simpl. split; [|split].
    + vm_compute in Hout. injection Hout as <-. reflexivity.
    + now rewrite lookup_insert_eq.
    + now rewrite lookup_insert_eq.
Defined.

(** C1 as stated fails on both aggregation paths.  The live scanner has an
    active candle at bucket 600000 and receives a tick stamped 1 ms (bucket
    0): the candle is closed into the history, a record is logged and the
    active candle is replaced.  The OANDA streamer receives the same late
    tick at price 7: its candle's close and high move to 7. *)
Lemma late_tick_dropped_counterexample :
  let mm := run 0 constructor [UpdateTick "EUR_USD" 5 600001] in
  let acs : gmap string OandaStreamer.ActiveCandle :=
    {[ "EUR_USD" := OandaStreamer.mkActive 600000 5 5 5 5 ]} in
  let data := OandaStreamer.mkPriceData "EUR_USD" 1 [7] [7] None None in
  activeCandle mm !! "EUR_USD" = Some (newCandle 600000 5) /\
  history mm "EUR_USD" = [] /\
  (m5Start 0 1 < 600000)%Z /\
  (OandaStreamer.getM5BucketStart 1 < 600000)%Z /\
  history (fst (updateTick 0 mm "EUR_USD" 7 1)) "EUR_USD"
    = [newCandle 600000 5] /\
  snd (updateTick 0 mm "EUR_USD" 7 1)
    = [OutWait "EUR_USD" None "Not enough data (1/200)"] /\
  activeCandle (fst (updateTick 0 mm "EUR_USD" 7 1)) !! "EUR_USD"
    = Some (newCandle 0 7) /\
  (exists c,
     fst (OandaStreamer.processLine acs (OandaStreamer.PRICE data)) !! "EUR_USD"
       = Some c /\
     OandaStreamer.close c == 7 /\ OandaStreamer.high c == 7 /\
     ~ OandaStreamer.close c == 5).
Proof.
  intros mm acs data.
  do 7 (split; [vm_compute; reflexivity|]).
  eexists. split; [vm_compute; reflexivity|].
  split; [vm_compute; reflexivity|]. split; [vm_compute; reflexivity|].
  vm_compute. discriminate.
Qed.

End LateTicks.

(** ** The 200-candle floor *)

Section HistoryFloor.
Import LiveScanner.

(** The guard of [onCandleClose]: with fewer than 200 candles in the array
    it is handed, the call logs the WAIT record whose reason is
    "Not enough data (n/200)" and returns, whatever the candles look
    like. *)
Lemma onCandleClose_short sym hist candle :
  (length hist < 200)%nat ->
  onCandleClose sym hist candle =
    Some (OutWait sym None
            ("Not enough data (" +:+ string_of_nat (length hist) +:+ "/200)")).
Proof.
  intros Hlen. unfold onCandleClose.
  destruct (Nat.ltb_spec (length hist) 200); [reflexivity|lia].
Qed.

(** C8, as the code has it.  The candle being closed is appended to the
    buffer before the 200-candle guard is evaluated.  A tick that closes a
    candle while the buffer holds fewer than 199 candles (so fewer than 200
    with the closed one) logs exactly one record, the WAIT record whose
    reason is "Not enough data (n/200)", [n] counting the closed candle:
    no BUY or SELL record is produced for that close, whatever the candles
    look like. *)
Theorem short_history_waits tz mm sym price t candle :
  activeCandle mm !! sym = Some candle ->
  time candle <> m5Start tz t ->
  (length (history mm sym) < 199)%nat ->
  let hist := history mm sym ++ [candle] in
  let wait :=
    OutWait sym None
      ("Not enough data (" +:+ string_of_nat (length hist) +:+ "/200)") in
  history (fst (updateTick tz mm sym price t)) sym = hist /\
  onCandleClose sym hist candle = Some wait /\
  snd (updateTick tz mm sym price t) = [wait].
Proof.
  intros Hact Hne Hlen hist wait.
  assert (Hpush : push_shift (history mm sym) candle = hist).
  { unfold push_shift. rewrite length_app. simpl length.
    destruct (Nat.ltb_spec 300 (length (history mm sym) + 1)); [lia|].
    reflexivity. }
  assert (Hclose : onCandleClose sym hist candle = Some wait).
  { apply onCandleClose_short. unfold hist. rewrite length_app. simpl. lia. }
  destruct (updateTick_bucket_change tz mm sym price t candle Hact Hne)
    as (out & Hout & Hupd).
  rewrite Hpush, Hclose in Hout. injection Hout as <-.
  rewrite Hupd, Hpush. cbn [fst snd].
  split; [|split; [exact Hclose|reflexivity]].
  unfold history. cbn [candles]. now rewrite lookup_insert_eq.
Qed.

Lemma short_history_waits_witness :
  let mm := run 0 constructor
              [AddHistory "BTCUSDT" [mkCandle 0 4 9 1 2];
               UpdateTick "BTCUSDT" 5 300001] in
  (length (history mm "BTCUSDT") < 199)%nat /\
  snd (updateTick 0 mm "BTCUSDT" 6 600001)
    = [OutWait "BTCUSDT" None "Not enough data (2/200)"].
Proof.
  intros mm. split; [vm_compute; lia|].
  apply (short_history_waits 0 mm "BTCUSDT" 6 600001
           (mkCandle 300000 5 5 5 5)).
  - vm_compute. reflexivity.
  - vm_compute. discriminate.
  - vm_compute. lia.
Defined.

(** C8 as stated fails at the boundary.  After the warm-up with 199
    candles and the three ticks of [Samples.quiet_live] the buffer holds
    199 closed candles, fewer than 200; the tick that opens bucket 200
    closes the active candle, which makes 200, and the record logged for
    that close is a BUY signal, not a WAIT. *)
Lemma wait_floor_counterexample :
  let mm := run 0 constructor Samples.quiet_live in
  (length (history mm "SHIBUSDT") < 200)%nat /\
  exists s,
    snd (updateTick 0 mm "SHIBUSDT" 2 (200 * 300000)) = [OutSignal s] /\
    signal s = BUY.
Proof.
  intros mm. split; [vm_compute; lia|].
  eexists. split; [vm_compute; reflexivity|]. reflexivity.
Qed.

End HistoryFloor.

(** ** Pattern classification *)

Section Patterns.
Import LiveScanner.

Lemma idx_app_last2 {A} (front : list A) (prev cur : A) :
  idx (front ++ [prev; cur]) (Z.of_nat (length (front ++ [prev; cur])) - 1)
    = Some cur /\
  idx (front ++ [prev; cur]) (Z.of_nat (length (front ++ [prev; cur])) - 2)
    = Some prev.
Proof.
  rewrite length_app. simpl. unfold idx. split.
  - destruct (Z.ltb_spec (Z.of_nat (length front + 2) - 1) 0); [lia|].
    replace (Z.to_nat (Z.of_nat (length front + 2) - 1))
      with (length front + 1)%nat by lia.
    rewrite lookup_app_r by lia.
    now replace (length front + 1 - length front)%nat with 1%nat by lia.
  - destruct (Z.ltb_spec (Z.of_nat (length front + 2) - 2) 0); [lia|].
    replace (Z.to_nat (Z.of_nat (length front + 2) - 2))
      with (length front + 0)%nat by lia.
    rewrite lookup_app_r by lia.
    now replace (length front + 0 - length front)%nat with 0%nat by lia.
Qed.

(** [detectPattern] looks at the last two candles only. *)
Lemma detectPattern_last2 front prev cur :
  detectPattern (front ++ [prev; cur]) =
    Some (if isPinBarBullish cur || isBullishEngulfing cur prev then BULLISH
          else if isPinBarBearish cur || isBearishEngulfing cur prev
          then BEARISH else NEUTRAL).
Proof.
  unfold detectPattern.
  destruct (idx_app_last2 front prev cur) as [-> ->]. simpl.
  unfold isBullishEngulfing, isBearishEngulfing.
  destruct (Qgtb (close cur) (open cur)), (Qltb (close cur) (open cur));
    reflexivity.
Qed.

Lemma isBullishEngulfing_true cur prev :
  isBullishEngulfing cur prev = true <->
  open cur < close cur /\ close prev < open prev /\
  open prev < close cur /\ open cur < close prev.
Proof.
  unfold isBullishEngulfing.
  rewrite !andb_true_iff, !Qgtb_gt, !Qltb_lt. tauto.
Qed.

(** The test the code calls bearish engulfing compares the current close
    with the previous close and the current open with the previous open. *)
Lemma isBearishEngulfing_true cur prev :
  isBearishEngulfing cur prev = true <->
  close cur < open cur /\ open prev < close prev /\
  close cur < close prev /\ open prev < open cur.
Proof.
  unfold isBearishEngulfing.
  rewrite !andb_true_iff, !Qgtb_gt, !Qltb_lt. tauto.
Qed.

(** What the code does on the two engulfing shapes.  On the last two
    candles [prev], [cur]: a bullish engulfing (current green, previous red,
    current close above previous open, current open below previous close)
    is classified BULLISH; the mirror-image bearish engulfing (current red,
    previous green, current close below previous open, current open above
    previous close) is classified BEARISH, unless the current candle is
    also a bullish pin bar: bullish patterns are tested first. *)
Lemma engulfing_classification front prev cur :
  (open cur < close cur -> close prev < open prev ->
   open prev < close cur -> open cur < close prev ->
   detectPattern (front ++ [prev; cur]) = Some BULLISH) /\
  (close cur < open cur -> open prev < close prev ->
   close cur < open prev -> close prev < open cur ->
   isPinBarBullish cur = false ->
   detectPattern (front ++ [prev; cur]) = Some BEARISH).
Proof.
  rewrite detectPattern_last2. split.
  - intros H1 H2 H3 H4.
    assert (E : isBullishEngulfing cur prev = true)
      by (apply isBullishEngulfing_true; tauto).
    rewrite E, orb_true_r. reflexivity.
  - intros H1 H2 H3 H4 Hpin.
    assert (E : isBearishEngulfing cur prev = true).
    { apply isBearishEngulfing_true. repeat split; try assumption.
      - apply Qlt_trans with (open prev); assumption.
      - apply Qlt_trans with (close prev); assumption. }
    assert (N : isBullishEngulfing cur prev = false).
    { apply not_true_is_false. intros T. apply isBullishEngulfing_true in T.
      destruct T as [T _]. apply (Qlt_irrefl (open cur)).
      now apply Qlt_trans with (close cur). }
    rewrite Hpin, N, E, orb_true_r. reflexivity.
Qed.

Lemma engulfing_classification_witness :
  detectPattern [mkCandle 0 98 98 92 92; mkCandle 300000 90 100 90 100]
    = Some BULLISH /\
  detectPattern [mkCandle 0 92 98 92 98; mkCandle 300000 100 100 90 90]
    = Some BEARISH.
Proof.
  split.
  - apply (engulfing_classification []
             (mkCandle 0 98 98 92 92) (mkCandle 300000 90 100 90 100));
      vm_compute; reflexivity.
  - apply (engulfing_classification []
             (mkCandle 0 92 98 92 98) (mkCandle 300000 100 100 90 90));
      vm_compute; reflexivity.
Defined.

(** Bullish patterns take precedence: a red engulfing candle that carries a
    long lower wick (previous candle green 92 -> 98, current candle red
    100 -> 90 with low 60) is a bullish pin bar and is classified BULLISH. *)
Example bullish_pin_bar_precedence :
  let prev := mkCandle 0 92 98 92 98 in
  let cur := mkCandle 300000 100 100 60 90 in
  close cur < open cur /\ open prev < close prev /\
  close cur < open prev /\ close prev < open cur /\
  detectPattern [prev; cur] = Some BULLISH.
Proof.
  intros prev cur.
  do 4 (split; [vm_compute; reflexivity|]).
  vm_compute. reflexivity.
Qed.


End Patterns.

(** ** Candle time stamps *)

Section CandleTime.
Import LiveScanner.

(** With a local offset that is a whole number of five-minute steps,
    [m5Start] is the floor of the instant to a multiple of 300000 ms. *)
Lemma m5Start_bucket tz t :
  (300000 | tz)%Z -> m5Start tz t = (t - t mod 300000)%Z.
Proof.
  intros [k ->]. unfold m5Start.
  set (u := (t + k * 300000)%Z).
  assert (Hu : (u mod 300000 = t mod 300000)%Z).
  { unfold u. apply Z.mod_add. lia. }
  rewrite <- Hu.
  assert (H1 : (u / 60000 / 60 = u / 3600000)%Z).
  { rewrite Z.div_div by lia. reflexivity. }
  assert (H2 : (u / 60000 / 5 = u / 300000)%Z).
  { rewrite Z.div_div by lia. reflexivity. }
  pose proof (Z.div_mod (u / 60000) 60 ltac:(lia)) as Hq.
  pose proof (Z.div_mod u 300000 ltac:(lia)) as Hb.
  assert (H3 : (u / 60000 / 5
                = 12 * (u / 60000 / 60) + (u / 60000) mod 60 / 5)%Z).
  { rewrite Hq at 1.
    replace (60 * (u / 60000 / 60) + (u / 60000) mod 60)%Z
      with ((u / 60000) mod 60 + (12 * (u / 60000 / 60)) * 5)%Z by lia.
    rewrite Z.div_add by lia. lia. }
  lia.
Qed.

(** After any tick the symbol's active candle sits at the tick's bucket. *)
Lemma updateTick_active_time tz mm sym price t :
  exists a, activeCandle (fst (updateTick tz mm sym price t)) !! sym = Some a /\
            time a = m5Start tz t.
Proof.
  destruct (activeCandle mm !! sym) as [active|] eqn:Hact.
  - destruct (decide (time active = m5Start tz t)) as [Heq|Hne].
    + rewrite (updateTick_same tz mm sym price t active Hact Heq). simpl.
      rewrite lookup_insert_eq. eexists. split; [reflexivity|exact Heq].
    + destruct (updateTick_bucket_change tz mm sym price t active Hact Hne)
        as (out & _ & ->). simpl.
      rewrite lookup_insert_eq. eexists. split; reflexivity.
  - rewrite (updateTick_first tz mm sym price t Hact). simpl.
    rewrite lookup_insert_eq. eexists. split; reflexivity.
Qed.

End CandleTime.


(** ** The history buffer *)

Section HistoryBuffer.
Import LiveScanner.

Lemma insert_by_time_perm c l : insert_by_time c l ≡ₚ c :: l.
Proof.
  induction l as [|d l IH]; simpl; [reflexivity|].
  destruct (time d <? time c)%Z; [|reflexivity].
  rewrite IH. apply Permutation_swap.
Qed.

Lemma sort_by_time_perm l : sort_by_time l ≡ₚ l.
Proof.
  induction l as [|c l IH]; simpl; [reflexivity|].
  rewrite insert_by_time_perm. now rewrite IH.
Qed.

Lemma insert_by_time_ordered c l :
  time_ordered l -> time_ordered (insert_by_time c l).
Proof.
  unfold time_ordered. induction l as [|d l IH]; simpl; intros Hl.
  - repeat constructor.
  - apply StronglySorted_cons in Hl as [Hd Hl].
    destruct (Z.ltb_spec (time d) (time c)) as [Hlt|Hge].
    + apply StronglySorted_cons. split; [|now apply IH].
      rewrite insert_by_time_perm. constructor; [lia|exact Hd].
    + apply StronglySorted_cons. split.
      * constructor; [exact Hge|].
        eapply Forall_impl; [exact Hd|]. simpl. intros; lia.
      * apply StronglySorted_cons. now split.
Qed.

Lemma sort_by_time_ordered l : time_ordered (sort_by_time l).
Proof.
  induction l as [|c l IH]; simpl; [constructor|].
  now apply insert_by_time_ordered.
Qed.

Lemma strictly_ordered_NoDup l : strictly_ordered l -> NoDup (map time l).
Proof.
  unfold strictly_ordered. induction l as [|c l IH]; simpl; intros Hl.
  - constructor.
  - apply StronglySorted_cons in Hl as [Hc Hl].
    constructor; [|now apply IH].
    intros Hin. apply list_elem_of_fmap in Hin as (d & Hd & Hdl).
    rewrite Forall_forall in Hc. specialize (Hc d Hdl). simpl in Hc. lia.
Qed.

Lemma time_ordered_NoDup_strict l :
  time_ordered l -> NoDup (map time l) -> strictly_ordered l.
Proof.
  unfold time_ordered, strictly_ordered.
  induction l as [|c l IH]; simpl; intros Hl Hnd; [constructor|].
  apply StronglySorted_cons in Hl as [Hc Hl].
  apply NoDup_cons in Hnd as [Hnotin Hnd].
  apply StronglySorted_cons. split; [|now apply IH].
  rewrite Forall_forall in Hc |- *. intros d Hd. specialize (Hc d Hd).
  simpl in *. destruct (decide (time c = time d)) as [E|E]; [|lia].
  exfalso. apply Hnotin. rewrite E. apply list_elem_of_fmap. eauto.
Qed.

Lemma strictly_ordered_drop n l : strictly_ordered l -> strictly_ordered (drop n l).
Proof.
  unfold strictly_ordered. intros Hl.
  rewrite <- (take_drop n l) in Hl. now apply StronglySorted_app_1_r in Hl.
Qed.

Lemma time_ordered_drop n l : time_ordered l -> time_ordered (drop n l).
Proof.
  unfold time_ordered. intros Hl.
  rewrite <- (take_drop n l) in Hl. now apply StronglySorted_app_1_r in Hl.
Qed.

Lemma addHistory_spec mm sym batch :
  addHistory mm sym batch =
    mkMarketManager
      (<[sym := keep300 (merged (history mm sym) batch)]> (candles mm))
      (activeCandle mm).
Proof.
  unfold addHistory, keep300, merged.
  rewrite history_initSymbol, candles_initSymbol_insert,
    activeCandle_initSymbol. reflexivity.
Qed.

Lemma history_addHistory mm sym batch s :
  history (addHistory mm sym batch) s =
    if decide (sym = s) then keep300 (merged (history mm sym) batch)
    else history mm s.
Proof.
  rewrite addHistory_spec. unfold history at 1. simpl.
  destruct (decide (sym = s)) as [->|Hne].
  - now rewrite lookup_insert_eq.
  - now rewrite lookup_insert_ne.
Qed.

Lemma keep300_length l : (length (keep300 l) <= 300)%nat.
Proof.
  unfold keep300, slice_neg, slice_last.
  destruct (Nat.ltb_spec 300 (length l)); [|lia].
  rewrite length_drop. lia.
Qed.

Lemma push_shift_length hist active :
  (length hist <= 300)%nat -> (length (push_shift hist active) <= 300)%nat.
Proof.
  intros Hlen. unfold push_shift.
  destruct (Nat.ltb_spec 300 (length (hist ++ [active]))) as [Hgt|Hle].
  - destruct hist as [|c hist]; simpl in *; [lia|].
    rewrite length_app in *. simpl in *. lia.
  - exact Hle.
Qed.

End HistoryBuffer.

Section HistoryOrder.
Import LiveScanner.

Lemma filter_fresh_times (hist batch : list Candle) :
  let existingTimes : gset Z := list_to_set (map time hist) in
  NoDup (map time hist) -> NoDup (map time batch) ->
  NoDup (map time (hist ++ filter (λ c, time c ∉ existingTimes) batch)).
Proof.
  intros existingTimes Hh Hb. rewrite map_app. apply NoDup_app.
  split; [exact Hh|]. split.
  - intros x Hx Hin.
    apply (list_elem_of_fmap time) in Hin as (c & -> & Hc).
    apply list_elem_of_filter in Hc as [Hfresh _]. apply Hfresh.
    unfold existingTimes. now apply elem_of_list_to_set.
  - apply sublist_NoDup with (map time batch); [exact Hb|].
    apply (fmap_sublist time), sublist_filter.
Qed.

Lemma merged_time_ordered hist batch : time_ordered (merged hist batch).
Proof. apply sort_by_time_ordered. Qed.

Lemma merged_strictly_ordered hist batch :
  strictly_ordered hist -> NoDup (map time batch) ->
  strictly_ordered (merged hist batch).
Proof.
  intros Hh Hb. apply time_ordered_NoDup_strict; [apply merged_time_ordered|].
  unfold merged.
  eapply NoDup_Permutation_proper;
    [apply (fmap_Permutation time), sort_by_time_perm|].
  apply filter_fresh_times; [now apply strictly_ordered_NoDup|exact Hb].
Qed.

Lemma keep300_time_ordered l : time_ordered l -> time_ordered (keep300 l).
Proof.
  unfold keep300, slice_neg, slice_last. destruct (300 <? length l)%nat; [|tauto].
  apply time_ordered_drop.
Qed.

Lemma keep300_strictly_ordered l :
  strictly_ordered l -> strictly_ordered (keep300 l).
Proof.
  unfold keep300, slice_neg, slice_last. destruct (300 <? length l)%nat; [|tauto].
  apply strictly_ordered_drop.
Qed.

Lemma push_shift_strictly_ordered hist active :
  strictly_ordered hist ->
  Forall (λ c, (time c < time active)%Z) hist ->
  strictly_ordered (push_shift hist active).
Proof.
  intros Hh Hlt.
  assert (Hall : strictly_ordered (hist ++ [active])).
  { apply StronglySorted_app. split; [|split; [exact Hh|]].
    - intros c d Hc Hd. apply list_elem_of_singleton in Hd as ->.
      rewrite Forall_forall in Hlt. now apply Hlt.
    - repeat constructor. }
  unfold push_shift. destruct (300 <? length (hist ++ [active]))%nat; [|exact Hall].
  destruct (hist ++ [active]) as [|c l]; [constructor|]. simpl.
  now apply StronglySorted_cons in Hall as [_ Hall].
Qed.

Lemma history_updateTick tz mm sym price t :
  history (fst (updateTick tz mm sym price t)) sym =
    match activeCandle mm !! sym with
    | Some active =>
        if decide (time active = m5Start tz t) then history mm sym
        else push_shift (history mm sym) active
    | None => history mm sym
    end.
Proof.
  destruct (activeCandle mm !! sym) as [active|] eqn:Hact.
  - destruct (decide (time active = m5Start tz t)) as [Heq|Hne].
    + rewrite (updateTick_same tz mm sym price t active Hact Heq).
      apply (history_initSymbol mm sym sym).
    + destruct (updateTick_bucket_change tz mm sym price t active Hact Hne)
        as (out & _ & ->).
      unfold history at 1. simpl. now rewrite lookup_insert_eq.
  - rewrite (updateTick_first tz mm sym price t Hact).
    apply (history_initSymbol mm sym sym).
Qed.

Lemma history_updateTick_other tz mm sym price t s :
  s <> sym -> history (fst (updateTick tz mm sym price t)) s = history mm s.
Proof.
  intros Hs.
  destruct (activeCandle mm !! sym) as [active|] eqn:Hact.
  - destruct (decide (time active = m5Start tz t)) as [Heq|Hne].
    + rewrite (updateTick_same tz mm sym price t active Hact Heq).
      apply (history_initSymbol mm sym s).
    + destruct (updateTick_bucket_change tz mm sym price t active Hact Hne)
        as (out & _ & ->).
      unfold history. simpl. now rewrite lookup_insert_ne.
  - rewrite (updateTick_first tz mm sym price t Hact).
    apply (history_initSymbol mm sym s).
Qed.

(** C2, as the code has it.  A warm-up merge always leaves the symbol's
    history buffer time-ordered.  Strictly increasing (hence unique) bucket
    times are preserved by a warm-up merge whose batch has pairwise distinct
    times, and by a live tick provided the active candle's bucket is later
    than every buffered bucket.  Both operations leave the buffers of the
    other symbols alone. *)
Theorem history_order_preserved tz mm sym batch price t :
  strictly_ordered (history mm sym) ->
  NoDup (map time batch) ->
  (forall active, activeCandle mm !! sym = Some active ->
     Forall (λ c, (time c < time active)%Z) (history mm sym)) ->
  (forall any, time_ordered (history (addHistory mm sym any) sym)) /\
  strictly_ordered (history (addHistory mm sym batch) sym) /\
  strictly_ordered (history (fst (updateTick tz mm sym price t)) sym) /\
  (forall s, s <> sym ->
     history (addHistory mm sym batch) s = history mm s /\
     history (fst (updateTick tz mm sym price t)) s = history mm s).
Proof.
  intros Hord Hbatch Hact. split; [|split; [|split]].
  - intros any. rewrite history_addHistory, decide_True by reflexivity.
    apply keep300_time_ordered, merged_time_ordered.
  - rewrite history_addHistory, decide_True by reflexivity.
    now apply keep300_strictly_ordered, merged_strictly_ordered.
  - rewrite history_updateTick.
    destruct (activeCandle mm !! sym) as [active|] eqn:E; [|exact Hord].
    destruct (decide (time active = m5Start tz t)); [exact Hord|].
    apply push_shift_strictly_ordered; [exact Hord|now apply Hact].
  - intros s Hs. split.
    + rewrite history_addHistory, decide_False by congruence. reflexivity.
    + now apply history_updateTick_other.
Qed.

Lemma history_order_preserved_witness :
  let mm := run 0 constructor
              [AddHistory "BTCUSDT" [mkCandle 300000 2 3 1 2; mkCandle 0 1 2 1 2];
               UpdateTick "BTCUSDT" 4 600001] in
  let batch := [mkCandle 300000 9 9 9 9; mkCandle 900000 5 6 4 5] in
  strictly_ordered (history (addHistory mm "BTCUSDT" batch) "BTCUSDT") /\
  strictly_ordered
    (history (fst (updateTick 0 mm "BTCUSDT" 5 900001)) "BTCUSDT").
Proof.
  intros mm batch.
  destruct (history_order_preserved 0 mm "BTCUSDT" batch 5 900001)
    as (_ & H1 & H2 & _).
  - vm_compute. repeat constructor.
  - simpl. apply NoDup_cons. split; [|apply NoDup_singleton].
    rewrite list_elem_of_singleton. lia.
  - intros active Hact. vm_compute in Hact. injection Hact as <-.
    vm_compute. repeat constructor.
  - split; [exact H1|exact H2].
Defined.

(** C2 as stated fails on the live path.  Ticks in buckets 600000, then 0,
    then 300000 close the candle of bucket 600000 and after it the candle of
    bucket 0: the buffer reads 600000, 0. *)
Lemma history_order_counterexample :
  let mm := run 0 constructor
              [UpdateTick "EUR_USD" 5 600001;
               UpdateTick "EUR_USD" 6 1;
               UpdateTick "EUR_USD" 7 300001] in
  map time (history mm "EUR_USD") = [600000%Z; 0%Z] /\
  ~ strictly_ordered (history mm "EUR_USD").
Proof.
  intros mm.
  assert (E : history mm "EUR_USD" = [newCandle 600000 5; newCandle 0 6])
    by (vm_compute; reflexivity).
  rewrite E. split; [reflexivity|].
  intros Hs. apply StronglySorted_cons in Hs as [Hc _].
  apply Forall_cons in Hc as [Hc _]. simpl in Hc. lia.
Qed.

End HistoryOrder.

Section Capacity.
Import LiveScanner.

Lemma handle_bounded tz mm r : bounded mm -> bounded (handle tz mm r).
Proof.
  intros Hb s. destruct r as [sym hs|sym price t]; simpl.
  - rewrite history_addHistory. case_decide; [apply keep300_length|apply Hb].
  - destruct (decide (s = sym)) as [->|Hne].
    + rewrite history_updateTick.
      destruct (activeCandle mm !! sym) as [active|]; [|apply Hb].
      case_decide; [apply Hb|]. apply push_shift_length, Hb.
    + rewrite history_updateTick_other by exact Hne. apply Hb.
Qed.

Lemma run_bounded tz rs mm : bounded mm -> bounded (run tz mm rs).
Proof.
  revert mm. induction rs as [|r rs IH]; intros mm Hb; [exact Hb|].
  simpl. apply IH. now apply handle_bounded.
Qed.

Lemma constructor_bounded : bounded constructor.
Proof. intros s. unfold history. simpl. rewrite lookup_empty. simpl. lia. Qed.

(** [slice(-300)] on a time-ordered buffer keeps the 300 latest entries:
    whatever is cut off is no later than whatever stays. *)
Lemma keep300_evicts_earliest l :
  time_ordered l -> (300 < length l)%nat ->
  exists evicted,
    l = evicted ++ keep300 l /\ length (keep300 l) = 300%nat /\
    forall e k, e ∈ evicted -> k ∈ keep300 l -> (time e <= time k)%Z.
Proof.
  intros Hl Hlen. unfold keep300, slice_neg, slice_last.
  destruct (Nat.ltb_spec 300 (length l)); [|lia].
  exists (take (length l - 300) l). split; [now rewrite take_drop|].
  split; [rewrite length_drop; lia|].
  intros e k He Hk. unfold time_ordered in Hl.
  rewrite <- (take_drop (length l - 300) l) in Hl.
  exact (StronglySorted_app_1_elem_of _ _ _ _ _ Hl He Hk).
Qed.

(** The live path drops the first entry of a full buffer. *)
Lemma push_shift_full hist active :
  length hist = 300%nat ->
  exists oldest rest,
    hist = oldest :: rest /\ push_shift hist active = rest ++ [active] /\
    length (push_shift hist active) = 300%nat.
Proof.
  intros Hlen. destruct hist as [|oldest rest]; [discriminate|].
  exists oldest, rest. split; [reflexivity|].
  unfold push_shift.
  destruct (Nat.ltb_spec 300 (length ((oldest :: rest) ++ [active]))) as [_|Hle].
  - split; [reflexivity|]. simpl. rewrite length_app. simpl in *. lia.
  - rewrite length_app in Hle. simpl in *. lia.
Qed.

(** C9, as the code has it.  On every state reachable from a fresh manager
    no history buffer is longer than 300.  A warm-up merge that would
    exceed 300 keeps the last 300 entries of the time-sorted buffer, so what
    it evicts is no later than what it keeps.  A candle closed by the live
    path into a full buffer evicts the buffer's first entry (the oldest
    inserted), which is the earliest one when the buffer with the closed
    candle is time-ordered. *)
Theorem buffer_capacity tz rs sym :
  (length (history (run tz constructor rs) sym) <= 300)%nat /\
  (forall mm batch,
     (300 < length (merged (history mm sym) batch))%nat ->
     exists evicted,
       merged (history mm sym) batch
         = evicted ++ history (addHistory mm sym batch) sym /\
       length (history (addHistory mm sym batch) sym) = 300%nat /\
       forall e k, e ∈ evicted -> k ∈ history (addHistory mm sym batch) sym ->
                   (time e <= time k)%Z) /\
  (forall hist active,
     length hist = 300%nat ->
     exists oldest rest,
       hist = oldest :: rest /\ push_shift hist active = rest ++ [active] /\
       length (push_shift hist active) = 300%nat /\
       (time_ordered (hist ++ [active]) ->
        Forall (λ k, (time oldest <= time k)%Z) (push_shift hist active))).
Proof.
  split; [|split].
  - apply run_bounded, constructor_bounded.
  - intros mm batch Hlen.
    rewrite history_addHistory, decide_True by reflexivity.
    apply keep300_evicts_earliest; [apply merged_time_ordered|exact Hlen].
  - intros hist active Hlen.
    destruct (push_shift_full hist active Hlen) as (oldest & rest & -> & Hp & Hl).
    exists oldest, rest. split; [reflexivity|]. split; [exact Hp|].
    split; [exact Hl|]. intros Hord. rewrite Hp.
    unfold time_ordered in Hord. simpl in Hord.
    now apply StronglySorted_cons in Hord as [Hc _].
Qed.

Lemma buffer_capacity_witness :
  (length (history (run 0 constructor Samples.late_then_full) "BTCUSDT")
     <= 300)%nat /\
  length (history (addHistory
                     (run 0 constructor [AddHistory "BTCUSDT" Samples.ramp300])
                     "BTCUSDT" [Samples.flat 2 0; Samples.flat 2 301])
            "BTCUSDT") = 300%nat.
Proof.
  destruct (buffer_capacity 0 Samples.late_then_full "BTCUSDT")
    as (Hlen & Hmerge & _).
  split; [exact Hlen|].
  destruct (Hmerge (run 0 constructor [AddHistory "BTCUSDT" Samples.ramp300])
              [Samples.flat 2 0; Samples.flat 2 301]) as (ev & _ & H300 & _).
  - vm_compute. lia.
  - exact H300.
Defined.

(** C9 as stated fails on the live path after a late tick.  The buffer
    holds buckets 2 .. 301 and the active candle sits at bucket 0 (opened by
    a late tick).  The next tick closes it: bucket 0 is appended and bucket
    2 is evicted, although bucket 0 is the earliest entry. *)
Lemma eviction_counterexample :
  let before := run 0 constructor Samples.late_then_full in
  let after := fst (updateTick 0 before "BTCUSDT" 1 (302 * 300000)) in
  activeCandle before !! "BTCUSDT" = Some (Samples.flat 1 0) /\
  map time (history before "BTCUSDT")
    = map (λ i, (Z.of_nat i * 300000)%Z) (seq 2 300) /\
  map time (history after "BTCUSDT")
    = map (λ i, (Z.of_nat i * 300000)%Z) (seq 3 299) ++ [0%Z] /\
  length (history after "BTCUSDT") = 300%nat.
Proof.
  intros before after.
  split; [vm_compute; reflexivity|].
  split; [vm_compute; reflexivity|].
  split; vm_compute; reflexivity.
Qed.

End Capacity.

(** ** Where candle times come from *)

Section TickProvenance.
Import LiveScanner.
Variable tz : Z.

Lemma elem_of_push_shift c hist active :
  c ∈ push_shift hist active -> c ∈ hist \/ c = active.
Proof.
  unfold push_shift. intros Hc.
  assert (Hin : c ∈ hist ++ [active]).
  { destruct (300 <? length (hist ++ [active]))%nat; [|exact Hc].
    destruct (hist ++ [active]); [exact Hc|now right]. }
  apply elem_of_app in Hin as [Hin|Hin]; [now left|right].
  now apply list_elem_of_singleton in Hin.
Qed.

Lemma elem_of_keep300 c l : c ∈ keep300 l -> c ∈ l.
Proof.
  unfold keep300, slice_neg, slice_last. destruct (300 <? length l)%nat; [|tauto].
  intros Hc. eapply elem_of_sublist; [exact Hc|apply sublist_drop].
Qed.

Lemma elem_of_merged c hist batch :
  c ∈ merged hist batch -> c ∈ hist \/ c ∈ batch.
Proof.
  unfold merged. rewrite sort_by_time_perm, elem_of_app, list_elem_of_filter.
  tauto.
Qed.

Lemma activeCandle_updateTick_other mm sym price t s :
  s <> sym ->
  activeCandle (fst (updateTick tz mm sym price t)) !! s = activeCandle mm !! s.
Proof.
  intros Hs.
  destruct (activeCandle mm !! sym) as [active|] eqn:Hact.
  - destruct (decide (time active = m5Start tz t)) as [Heq|Hne].
    + rewrite (updateTick_same tz mm sym price t active Hact Heq). simpl.
      now rewrite lookup_insert_ne.
    + destruct (updateTick_bucket_change tz mm sym price t active Hact Hne)
        as (out & _ & ->). simpl. now rewrite lookup_insert_ne.
  - rewrite (updateTick_first tz mm sym price t Hact). simpl.
    now rewrite lookup_insert_ne.
Qed.

Lemma from_tick_mono seen r sym c :
  from_tick tz seen sym c -> from_tick tz (seen ++ [r]) sym c.
Proof.
  intros (p & t & Hin & Ht). exists p, t. split; [|exact Ht].
  apply elem_of_app. now left.
Qed.

Lemma from_batch_mono seen r sym c :
  from_batch seen sym c -> from_batch (seen ++ [r]) sym c.
Proof.
  intros (b & Hin & Hc). exists b. split; [|exact Hc].
  apply elem_of_app. now left.
Qed.

Lemma handle_stamped seen mm r :
  stamped tz seen mm -> stamped tz (seen ++ [r]) (handle tz mm r).
Proof.
  intros Hinv sym c.
  assert (Hlast : r ∈ seen ++ [r]).
  { apply elem_of_app. right. now apply list_elem_of_singleton. }
  assert (Hold : c ∈ history mm sym ->
                 from_batch (seen ++ [r]) sym c \/ from_tick tz (seen ++ [r]) sym c).
  { intros Hc. destruct (proj1 (Hinv sym c) Hc) as [Hb|Ht];
      [left; now apply from_batch_mono|right; now apply from_tick_mono]. }
  assert (Hact : activeCandle mm !! sym = Some c ->
                 from_tick tz (seen ++ [r]) sym c).
  { intros Hc. apply from_tick_mono, (proj2 (Hinv sym c) Hc). }
  destruct r as [sym0 batch|sym0 price t]; cbn [handle].
  - split.
    + rewrite history_addHistory. case_decide as Hs; [subst sym0|exact Hold].
      intros Hc. apply elem_of_keep300, elem_of_merged in Hc as [Hc|Hc];
        [now apply Hold|].
      left. exists batch. now split.
    + rewrite addHistory_spec. simpl. exact Hact.
  - destruct (decide (sym = sym0)) as [->|Hne].
    + split.
      * rewrite history_updateTick.
        destruct (activeCandle mm !! sym0) as [active|] eqn:E; [|exact Hold].
        case_decide; [exact Hold|].
        intros Hc. apply elem_of_push_shift in Hc as [Hc| ->];
          [now apply Hold|].
        right. apply from_tick_mono, (proj2 (Hinv sym0 active) E).
      * intros Hc.
        destruct (updateTick_active_time tz mm sym0 price t) as (a & Ha & Ht).
        rewrite Ha in Hc. injection Hc as <-.
        exists price, t. now split.
    + rewrite history_updateTick_other, activeCandle_updateTick_other
        by exact Hne. now split.
Qed.

Lemma run_stamped rs : forall seen mm,
  stamped tz seen mm -> stamped tz (seen ++ rs) (run tz mm rs).
Proof.
  induction rs as [|r rs IH]; intros seen mm Hinv.
  - now rewrite app_nil_r.
  - simpl. replace (seen ++ r :: rs) with ((seen ++ [r]) ++ rs)
      by now rewrite <- app_assoc.
    apply IH. now apply handle_stamped.
Qed.

(** Every candle the manager holds after a run either came in with a
    warm-up batch or carries the bucket start of a tick of its symbol. *)
Lemma constructor_run_stamped rs : stamped tz rs (run tz constructor rs).
Proof.
  apply (run_stamped rs []). intros sym c. split.
  - unfold history. simpl. rewrite lookup_empty. simpl. intros Hc.
    now apply elem_of_nil in Hc.
  - simpl. rewrite lookup_empty. discriminate.
Qed.

End TickProvenance.

Section CandleTimeClaim.
Import LiveScanner.

Lemma processLine_later acs data price candle :
  OandaStreamer.midPrice data = Some price ->
  acs !! OandaStreamer.instrument data = Some candle ->
  (OandaStreamer.bucketTime candle
     < OandaStreamer.getM5BucketStart (OandaStreamer.time data))%Z ->
  OandaStreamer.processLine acs (OandaStreamer.PRICE data) =
    (<[OandaStreamer.instrument data :=
         OandaStreamer.mkActive
           (OandaStreamer.getM5BucketStart (OandaStreamer.time data))
           price price price price]> acs,
     [OandaStreamer.closeCandle (OandaStreamer.instrument data) candle]).
Proof.
  intros Hp Hc Hlt. unfold OandaStreamer.processLine. rewrite Hp, Hc.
  destruct (Z.ltb_spec (OandaStreamer.bucketTime candle)
              (OandaStreamer.getM5BucketStart (OandaStreamer.time data)));
    [reflexivity|lia].
Qed.

(** C6, as the code has it.  In [MarketManager.updateTick] (local offset a
    multiple of five minutes) a candle's [time] is the bucket start
    [t - t mod 300000] of every tick aggregated into it: the tick either
    opens a candle stamped with its bucket start, or is merged into the
    active candle, which then already carries that stamp, or closes the
    active candle, which is pushed on the history unchanged; hence every
    candle in a buffer after a run from a fresh manager comes from a warm-up
    batch or carries the bucket start of a tick of its symbol.  The two
    stand-alone streamers stamp the records they emit with the close of the
    bucket instead: the OANDA streamer with [bucketTime + 300000], the
    Binance streamer with the kline close time [T]. *)
Theorem candle_time_by_path tz mm sym price t :
  (300000 | tz)%Z ->
  let bucket := (t - t mod 300000)%Z in
  let r := updateTick tz mm sym price t in
  (exists a, activeCandle (fst r) !! sym = Some a /\ time a = bucket) /\
  (forall active, activeCandle mm !! sym = Some active ->
     (time active = bucket /\
      activeCandle (fst r) !! sym = Some (touch active price) /\
      history (fst r) sym = history mm sym /\ snd r = [])
     \/
     (time active <> bucket /\
      history (fst r) sym = push_shift (history mm sym) active /\
      activeCandle (fst r) !! sym = Some (newCandle bucket price))) /\
  (forall rs s c,
     c ∈ history (run tz constructor rs) s ->
     (exists batch, AddHistory s batch ∈ rs /\ c ∈ batch) \/
     (exists p t', UpdateTick s p t' ∈ rs /\
                   time c = (t' - t' mod 300000)%Z)) /\
  (forall acs data p candle,
     OandaStreamer.midPrice data = Some p ->
     acs !! OandaStreamer.instrument data = Some candle ->
     (OandaStreamer.bucketTime candle
        < OandaStreamer.getM5BucketStart (OandaStreamer.time data))%Z ->
     snd (OandaStreamer.processLine acs (OandaStreamer.PRICE data)) =
       [OandaStreamer.mkEmitted (OandaStreamer.instrument data)
          (OandaStreamer.bucketTime candle + 300000)
          (OandaStreamer.open candle) (OandaStreamer.high candle)
          (OandaStreamer.low candle) (OandaStreamer.close candle)]) /\
  (forall k, BinanceStreamer.x k = true ->
     BinanceStreamer.onMessage (Some k) =
       [BinanceStreamer.mkEmitted
          (BinanceStreamer.toUpperCase (BinanceStreamer.s k))
          (BinanceStreamer.T k) (BinanceStreamer.o k) (BinanceStreamer.h k)
          (BinanceStreamer.l k) (BinanceStreamer.c k)]).
Proof.
  intros Htz bucket r. subst bucket r.
  rewrite <- (m5Start_bucket tz t Htz).
  split; [apply updateTick_active_time|]. split; [|split; [|split]].
  - intros active Hact.
    destruct (decide (time active = m5Start tz t)) as [Heq|Hne]; [left|right].
    + rewrite (updateTick_same tz mm sym price t active Hact Heq). simpl.
      rewrite lookup_insert_eq.
      split; [exact Heq|]. split; [reflexivity|]. split; [|reflexivity].
      apply (history_initSymbol mm sym sym).
    + destruct (updateTick_bucket_change tz mm sym price t active Hact Hne)
        as (out & _ & ->). simpl.
      split; [exact Hne|]. unfold history at 1. simpl.
      rewrite !lookup_insert_eq. split; reflexivity.
  - intros rs s c Hc.
    destruct (proj1 (constructor_run_stamped tz rs s c) Hc)
      as [Hb|(p & t' & Hin & Ht)]; [left; exact Hb|right].
    exists p, t'. split; [exact Hin|].
    now rewrite <- (m5Start_bucket tz t' Htz).
  - intros acs data p candle Hp Hc Hlt.
    rewrite (processLine_later acs data p candle Hp Hc Hlt). reflexivity.
  - intros k Hk. unfold BinanceStreamer.onMessage. now rewrite Hk.
Qed.

Lemma candle_time_by_path_witness :
  let mm := run 19800000 constructor [UpdateTick "XAU_USD" 5 600001] in
  let r := updateTick 19800000 mm "XAU_USD" 7 900002 in
  history (fst r) "XAU_USD" = [newCandle 600000 5] /\
  activeCandle (fst r) !! "XAU_USD" = Some (newCandle 900000 7).
Proof.
  intros mm r.
  destruct (candle_time_by_path 19800000 mm "XAU_USD" 7 900002)
    as (_ & Hstep & _).
  - exists 66%Z. reflexivity.
  - destruct (Hstep (newCandle 600000 5)) as [(Heq & _)|(_ & Hh & Ha)].
    + vm_compute. reflexivity.
    + vm_compute in Heq. discriminate Heq.
    + split; [exact Hh|exact Ha].
Defined.

(** C6 as stated fails on the stand-alone streamers.  The OANDA streamer
    aggregates the tick stamped 1 ms (bucket start 0) and, when the tick
    stamped 300001 ms arrives, emits that candle with time 300000; the
    Binance streamer emits a closed kline that started at 0 with its close
    time 299999. *)
Lemma close_time_counterexample :
  let tick1 := OandaStreamer.mkPriceData "EUR_USD" 1 [5] [5] None None in
  let tick2 := OandaStreamer.mkPriceData "EUR_USD" 300001 [6] [6] None None in
  let acs1 := fst (OandaStreamer.processLine ∅ (OandaStreamer.PRICE tick1)) in
  let kline := BinanceStreamer.mkKline "btcusdt" 0 299999 5 7 4 6 true in
  (1 - 1 mod 300000 = 0)%Z /\
  map OandaStreamer.e_time
    (snd (OandaStreamer.processLine acs1 (OandaStreamer.PRICE tick2)))
    = [300000%Z] /\
  map BinanceStreamer.e_time (BinanceStreamer.onMessage (Some kline))
    = [299999%Z].
Proof.
  intros tick1 tick2 acs1 kline.
  split; [reflexivity|]. split; vm_compute; reflexivity.
Qed.

End CandleTimeClaim.

(** ** Rounding to five decimals *)

Section Rounding.


Lemma Qmake_lt_100000 a b : (a < b)%Z -> Qmake a 100000 < Qmake b 100000.
Proof. intros H. unfold Qlt. simpl. lia. Qed.

Lemma Qmake_opp_lt_100000 a b :
  (0 < a + b)%Z -> - Qmake a 100000 < Qmake b 100000.
Proof. intros H. unfold Qlt, Qopp. simpl. lia. Qed.

Lemma Qfloor_succ_le z w : z + 1 <= w -> (Qfloor z + 1 <= Qfloor w)%Z.
Proof.
  intros H. rewrite <- (Qfloor_Z (Qfloor z + 1)). apply Qfloor_resp_le.
  rewrite inject_Z_plus. pose proof (Qfloor_le z) as Hz.
  change (inject_Z 1) with 1. lra.
Qed.

Lemma Qfloor_nonneg z : 0 <= z -> (0 <= Qfloor z)%Z.
Proof.
  intros H. change 0%Z with (Qfloor 0). now apply Qfloor_resp_le.
Qed.


Lemma round5pos_gap x y : x + (1 # 100000) <= y -> round5pos x < round5pos y.
Proof.
  intros H. apply Qmake_lt_100000.
  assert (Qfloor (x * 100000 + (1 # 2)) + 1
          <= Qfloor (y * 100000 + (1 # 2)))%Z; [|lia].
  apply Qfloor_succ_le. lra.
Qed.



(** Two values at least 10^-5 apart stay apart after rounding. *)
Lemma round5_gap x y : x + (1 # 100000) <= y -> round5 x < round5 y.
Proof.
  intros H. unfold round5.
  destruct (Qltb x 0) eqn:Ex, (Qltb y 0) eqn:Ey.
  - assert (round5pos (- y) < round5pos (- x)) by (apply round5pos_gap; lra).
    lra.
  - apply Qltb_lt in Ex. apply Qltb_ge in Ey.
    assert (Hs : (0 < Qfloor (- x * 100000 + (1 # 2))
                      + Qfloor (y * 100000 + (1 # 2)))%Z).
    { pose proof (Qlt_floor (- x * 100000 + (1 # 2))) as Hx.
      pose proof (Qlt_floor (y * 100000 + (1 # 2))) as Hy.
      pose proof (Qfloor_nonneg (- x * 100000 + (1 # 2)) ltac:(lra)) as Nx.
      pose proof (Qfloor_nonneg (y * 100000 + (1 # 2)) ltac:(lra)) as Ny.
      destruct (Z.eq_dec (Qfloor (- x * 100000 + (1 # 2))) 0%Z) as [Zx|Zx];
        [|lia].
      destruct (Z.eq_dec (Qfloor (y * 100000 + (1 # 2))) 0%Z) as [Zy|Zy];
        [|lia].
      rewrite Zx in Hx. rewrite Zy in Hy.
      change (inject_Z (0 + 1)) with 1 in Hx, Hy. exfalso. lra. }
    now apply Qmake_opp_lt_100000.
  - apply Qltb_ge in Ex. apply Qltb_lt in Ey. lra.
  - now apply round5pos_gap.
Qed.

Lemma round5pos_comp x y : x == y -> round5pos x = round5pos y.
Proof.
  intros H. unfold round5pos. f_equal. apply Qfloor_comp. now rewrite H.
Qed.

Lemma round5_comp x y : x == y -> round5 x = round5 y.
Proof.
  intros H. unfold round5, Qltb.
  assert (E : Qle_bool 0 x = Qle_bool 0 y) by now rewrite H.
  rewrite E. destruct (Qle_bool 0 y); simpl.
  - now apply round5pos_comp.
  - f_equal. apply round5pos_comp. now rewrite H.
Qed.

End Rounding.

(** ** Stop and targets *)

Section Levels.
Import LiveScanner.





End Levels.

Section LevelsClaims.
Import LiveScanner.


End LevelsClaims.

Section LevelsExamples.
Import LiveScanner.



(** C4: the decision engine has no risk floor.  On [Samples.quiet200]
    (the buffer the live path reaches with [Samples.quiet_live]) it logs a
    BUY whose stop distance ATR(14) x 1.5 is below 0.00001, and the
    three targets, computed from that unclamped risk, all equal the entry
    price after rounding. *)
Theorem tiny_risk_not_clamped :
  history (fst (updateTick 0 (run 0 constructor Samples.quiet_live)
                  "SHIBUSDT" 2 (200 * 300000))) "SHIBUSDT"
    = Samples.quiet200 /\
  exists s,
    onCandleClose "SHIBUSDT" Samples.quiet200 Samples.pin = Some (OutSignal s) /\
    signal s = BUY /\
    toNumber (atr Samples.quiet200 14) * (15 # 10) < (1 # 100000) /\
    tp1 s = entry_price s /\ tp2 s = entry_price s /\ tp3 s = entry_price s.
Proof.
  split; [vm_compute; reflexivity|].
  eexists. split; [vm_compute; reflexivity|]. simpl.
  split; [reflexivity|]. split; [vm_compute; reflexivity|].
  repeat split.
Qed.

(** The webhook scanner does have the floor: at the entry and stop of the
    quiet candle above (entry 2.0000001, low 1.9999997) the distance
    0.0000004 is replaced by entry x 0.0005, and the three BUY targets lie
    above the entry, in strictly increasing order. *)
Example webhook_risk_floor :
  let entryPrice := 20000001 # 10000000 in
  let lv := WebhookScanner.riskManagement WebhookScanner.BUY entryPrice
              entryPrice (19999997 # 10000000) in
  entryPrice - WebhookScanner.stopLoss lv <= (1 # 100000) /\
  (1 # 100000) < WebhookScanner.risk lv /\
  entryPrice < WebhookScanner.tp1 lv /\
  WebhookScanner.tp1 lv < WebhookScanner.tp2 lv /\
  WebhookScanner.tp2 lv < WebhookScanner.tp3 lv.
Proof.
  intros entryPrice lv.
  split; [vm_compute; discriminate|].
  repeat split; vm_compute; reflexivity.
Qed.

End LevelsExamples.

(** ** De-duplication by bucket time *)

Section Dedup.
Import LiveScanner.

(** The warm-up merge skips every candle whose bucket time is already in
    the buffer: such a batch only re-sorts the buffer. *)
Lemma addHistory_skips_buffered hist batch :
  (forall c, c ∈ batch -> time c ∈ map time hist) ->
  merged hist batch = sort_by_time hist.
Proof.
  intros Hall. unfold merged.
  replace (filter (λ c : Candle, time c ∉ (list_to_set (map time hist) : gset Z))
             batch) with (@nil Candle); [now rewrite app_nil_r|].
  symmetry. induction batch as [|c batch IH]; [reflexivity|].
  rewrite filter_cons, decide_False.
  - apply IH. intros d Hd. apply Hall. now right.
  - intros Hfresh. apply Hfresh. apply elem_of_list_to_set, Hall. now left.
Qed.

(** C3: the live path appends without looking for the bucket time.  The
    warm-up delivers the candle of bucket 0 (Binance history includes the
    kline still in progress); a tick stamped 1 ms opens the active candle of
    bucket 0, and the tick stamped 300001 ms closes it into the buffer,
    which then holds bucket 0 twice. *)
Theorem live_close_duplicates_bucket :
  let mm := run 0 constructor
              [AddHistory "BTCUSDT" [mkCandle 0 5 6 4 5];
               UpdateTick "BTCUSDT" 5 1;
               UpdateTick "BTCUSDT" 6 300001] in
  history mm "BTCUSDT" = [mkCandle 0 5 6 4 5; mkCandle 0 5 5 5 5].
Proof. vm_compute. reflexivity. Qed.

(** The merge itself also lets a repeated bucket time through when the
    repetition is inside one batch: the set of existing times is computed
    once, before the batch is scanned. *)
Example addHistory_batch_duplicates :
  history (addHistory constructor "BTCUSDT"
             [mkCandle 0 5 6 4 5; mkCandle 0 7 8 6 7]) "BTCUSDT"
  = [mkCandle 0 5 6 4 5; mkCandle 0 7 8 6 7].
Proof. vm_compute. reflexivity. Qed.

End Dedup.

(** * Further properties of the scripts *)

(** ** Moving average and average true range *)

Section Indicators.
Import LiveScanner.

Lemma slice_last_app {A} (front w : list A) :
  slice_last (length w) (front ++ w) = w.
Proof.
  unfold slice_last. rewrite length_app.
  replace (length front + length w - length w)%nat with (length front) by lia.
  now rewrite drop_app_length.
Qed.

(** [sma] looks at the last [period] values only: for a non-empty window
    (a positive period), whatever precedes the window in the array does not
    change the result. *)
Theorem sma_last_window front w :
  (0 < length w)%nat ->
  sma (front ++ w) (length w) = sma w (length w).
Proof.
  intros Hw. unfold sma. rewrite length_app.
  destruct (Nat.ltb_spec (length front + length w) (length w)); [lia|].
  destruct (Nat.ltb_spec (length w) (length w)); [lia|].
  unfold slice_neg. destruct (length w) eqn:Hlen.
  - lia.
  - rewrite <- Hlen, slice_last_app. unfold slice_last.
    now rewrite Nat.sub_diag, drop_0.
Qed.

Lemma sma_last_window_witness :
  (0 < length [3; 4])%nat /\ sma ([1; 2] ++ [3; 4]) 2 = sma [3; 4] 2.
Proof.
  split; [simpl; lia|].
  apply (sma_last_window [1; 2] [3; 4]). simpl. lia.
Defined.

Lemma atr_loop_in_range candles n : forall i acc,
  (1 <= i)%nat -> (i + n <= length candles)%nat ->
  is_Some (atr_loop candles i n acc).
Proof.
  induction n as [|n IH]; intros i acc Hi Hlen; simpl; [eauto|].
  destruct (lookup_lt_is_Some_2 candles i) as [c Hc]; [lia|].
  assert (Hp : is_Some (idx candles (Z.of_nat i - 1))).
  { unfold idx. destruct (Z.ltb_spec (Z.of_nat i - 1) 0); [lia|].
    apply lookup_lt_is_Some. lia. }
  destruct Hp as [p Hp]. rewrite Hc, Hp. simpl. apply IH; lia.
Qed.

(** [atr] returns [null] exactly when there are fewer than [period + 1]
    candles; otherwise every [candles[i]] and [candles[i - 1]] it reads
    exists, so it returns a number. *)
Theorem atr_null_iff candles period :
  atr candles period = None <-> (length candles < period + 1)%nat.
Proof.
  unfold atr.
  destruct (Nat.ltb_spec (length candles) (period + 1)) as [Hlt|Hge];
    [tauto|].
  destruct (atr_loop_in_range candles period (length candles - period) 0)
    as [r Hr]; [lia|lia|].
  rewrite Hr. simpl. split; [discriminate|lia].
Qed.

Lemma lookup_app_plus {A} (front w : list A) (i : nat) :
  (front ++ w) !! (length front + i)%nat = w !! i.
Proof.
  rewrite lookup_app_r by lia. f_equal. lia.
Qed.

Lemma idx_app_r {A} (front w : list A) (i : nat) :
  idx (front ++ w) (Z.of_nat (length front + S i) - 1) = idx w (Z.of_nat (S i) - 1).
Proof.
  unfold idx.
  destruct (Z.ltb_spec (Z.of_nat (length front + S i) - 1) 0); [lia|].
  destruct (Z.ltb_spec (Z.of_nat (S i) - 1) 0); [lia|].
  replace (Z.to_nat (Z.of_nat (length front + S i) - 1))
    with (length front + i)%nat by lia.
  replace (Z.to_nat (Z.of_nat (S i) - 1)) with i by lia.
  apply lookup_app_plus.
Qed.

Lemma atr_loop_app front w n : forall i acc,
  atr_loop (front ++ w) (length front + S i) n acc = atr_loop w (S i) n acc.
Proof.
  induction n as [|n IH]; intros i acc; simpl; [reflexivity|].
  rewrite idx_app_r.
  rewrite (lookup_app_plus front w (S i)).
  destruct (w !! S i) as [c|]; [|reflexivity]. simpl.
  change (Z.pos (Pos.of_succ_nat i) - 1)%Z with (Z.of_nat (S i) - 1)%Z.
  destruct (idx w (Z.of_nat (S i) - 1)) as [p|]; [|reflexivity]. simpl.
  replace (S (length front + S i)) with (length front + S (S i))%nat by lia.
  apply IH.
Qed.

(** [atr] looks at the last [period + 1] candles only. *)
Theorem atr_last_window front w period :
  length w = S period ->
  atr (front ++ w) period = atr w period.
Proof.
  intros Hw. unfold atr. rewrite length_app, Hw.
  destruct (Nat.ltb_spec (length front + S period) (period + 1)); [lia|].
  destruct (Nat.ltb_spec (S period) (period + 1)); [lia|].
  replace (length front + S period - period)%nat with (length front + 1)%nat
    by lia.
  replace (S period - period)%nat with 1%nat by lia.
  now rewrite (atr_loop_app front w period 0 0).
Qed.

Lemma atr_last_window_witness :
  atr ([mkCandle 0 9 9 1 5] ++ [mkCandle 1 2 3 1 2; mkCandle 2 2 4 2 3]) 1
  = atr [mkCandle 1 2 3 1 2; mkCandle 2 2 4 2 3] 1.
Proof.
  apply (atr_last_window [mkCandle 0 9 9 1 5]
           [mkCandle 1 2 3 1 2; mkCandle 2 2 4 2 3] 1).
  reflexivity.
Defined.

End Indicators.

(** ** Pattern and sweep detection *)

Section Detection.
Import LiveScanner.

Lemma idx_app_last {A} (front : list A) (cur : A) :
  idx (front ++ [cur]) (Z.of_nat (length (front ++ [cur])) - 1) = Some cur.
Proof.
  rewrite length_app. simpl. unfold idx.
  destruct (Z.ltb_spec (Z.of_nat (length front + 1) - 1) 0); [lia|].
  replace (Z.to_nat (Z.of_nat (length front + 1) - 1))
    with (length front + 0)%nat by lia.
  now rewrite lookup_app_plus.
Qed.

(** [detectPattern] throws (reads a field of [undefined]) exactly when the
    array is empty, or holds a single candle whose close differs from its
    open: [prev] is read only behind [current.close > current.open] or
    [current.close < current.open], so a lone candle with [open = close]
    is classified without a throw. *)
Theorem detectPattern_throws_iff candles :
  detectPattern candles = None <->
  candles = [] \/ exists c, candles = [c] /\ ~ close c == open c.
Proof.
  split.
  - intros Hn. destruct candles as [|c [|d l]].
    + now left.
    + right. exists c. split; [reflexivity|]. intros Heq.
      unfold detectPattern in Hn. simpl in Hn.
      assert (G : Qgtb (close c) (open c) = false) by (apply Qgtb_le; lra).
      assert (L : Qltb (close c) (open c) = false) by (apply Qltb_ge; lra).
      rewrite G, L in Hn. discriminate.
    + destruct (detectPattern_total (c :: d :: l)) as [p Hp];
        [simpl; lia|congruence].
  - intros [->|(c & -> & Hne)]; [reflexivity|].
    unfold detectPattern. simpl.
    destruct (Qgtb (close c) (open c)) eqn:G; [reflexivity|].
    destruct (Qltb (close c) (open c)) eqn:L; [reflexivity|].
    apply Qgtb_le in G. apply Qltb_ge in L. exfalso. apply Hne. lra.
Qed.

(** A lone candle that opens and closes at the same price does not throw:
    the pin-bar tests alone decide. *)
Example detectPattern_single_flat :
  detectPattern [mkCandle 0 5 6 4 5] = Some NEUTRAL /\
  detectPattern [mkCandle 0 5 4 3 5] = Some BULLISH /\
  detectPattern [mkCandle 0 5 6 4 7] = None.
Proof. repeat split. Qed.

(** A candle that opens and closes at the same price (and whose high and low
    enclose that price) is never a pin bar, whatever its wicks, and never
    engulfs: the classification is NEUTRAL. *)
Theorem doji_is_neutral front prev cur :
  open cur == close cur ->
  close cur <= high cur -> low cur <= close cur ->
  detectPattern (front ++ [prev; cur]) = Some NEUTRAL.
Proof.
  intros Heq Hhi Hlo. rewrite detectPattern_last2.
  assert (Hbody : Qabs (close cur - open cur) == 0).
  { rewrite Heq. assert (Z0 : close cur - close cur == 0) by ring.
    rewrite Z0. reflexivity. }
  assert (Hmax : Qmax (open cur) (close cur) == close cur).
  { rewrite Heq. apply Q.max_id. }
  assert (Hmin : Qmin (open cur) (close cur) == close cur).
  { rewrite Heq. apply Q.min_id. }
  assert (P1 : isPinBarBullish cur = false).
  { unfold isPinBarBullish. apply andb_false_iff. right.
    apply Qltb_ge. rewrite Hbody, Hmax. lra. }
  assert (P2 : isPinBarBearish cur = false).
  { unfold isPinBarBearish. apply andb_false_iff. right.
    apply Qltb_ge. rewrite Hbody, Hmin. lra. }
  assert (E1 : isBullishEngulfing cur prev = false).
  { apply not_true_is_false. intros T. apply isBullishEngulfing_true in T.
    destruct T as [T _]. rewrite Heq in T. now apply Qlt_irrefl in T. }
  assert (E2 : isBearishEngulfing cur prev = false).
  { apply not_true_is_false. intros T. apply isBearishEngulfing_true in T.
    destruct T as [T _]. rewrite Heq in T. now apply Qlt_irrefl in T. }
  now rewrite P1, P2, E1, E2.
Qed.

Lemma doji_is_neutral_witness :
  detectPattern [mkCandle 0 98 98 92 92; mkCandle 300000 95 96 60 95]
    = Some NEUTRAL.
Proof.
  apply (doji_is_neutral [] (mkCandle 0 98 98 92 92)
           (mkCandle 300000 95 96 60 95)); vm_compute;
    solve [reflexivity | discriminate].
Defined.

Lemma Qmax_cases x y : Qmax x y = x \/ Qmax x y = y.
Proof.
  unfold Qmax, GenericMinMax.gmax. destruct (x ?= y); tauto.
Qed.

Lemma Qmin_cases x y : Qmin x y = x \/ Qmin x y = y.
Proof.
  unfold Qmin, GenericMinMax.gmin. destruct (x ?= y); tauto.
Qed.

Lemma fold_Qmax_spec xs : forall x,
  (fold_left Qmax xs x = x \/ fold_left Qmax xs x ∈ xs) /\
  x <= fold_left Qmax xs x /\
  Forall (λ y, y <= fold_left Qmax xs x) xs.
Proof.
  induction xs as [|y ys IH]; intros x; simpl.
  - split; [now left|]. split; [apply Qle_refl|constructor].
  - destruct (IH (Qmax x y)) as (Hin & Hle & Hall).
    pose proof (Q.le_max_l x y). pose proof (Q.le_max_r x y).
    split; [|split].
    + destruct Hin as [E|Hin]; [|right; now right].
      rewrite E. destruct (Qmax_cases x y) as [E'|E']; rewrite E';
        [now left|right; now left].
    + lra.
    + constructor; [lra|exact Hall].
Qed.

Lemma fold_Qmin_spec xs : forall x,
  (fold_left Qmin xs x = x \/ fold_left Qmin xs x ∈ xs) /\
  fold_left Qmin xs x <= x /\
  Forall (λ y, fold_left Qmin xs x <= y) xs.
Proof.
  induction xs as [|y ys IH]; intros x; simpl.
  - split; [now left|]. split; [apply Qle_refl|constructor].
  - destruct (IH (Qmin x y)) as (Hin & Hle & Hall).
    pose proof (Q.le_min_l x y). pose proof (Q.le_min_r x y).
    split; [|split].
    + destruct Hin as [E|Hin]; [|right; now right].
      rewrite E. destruct (Qmin_cases x y) as [E'|E']; rewrite E';
        [now left|right; now left].
    + lra.
    + constructor; [lra|exact Hall].
Qed.

(** [Math.max(...xs)] is an element of [xs] that bounds all of them. *)
Lemma max_list_spec xs m :
  max_list xs = Some m -> m ∈ xs /\ Forall (λ y, y <= m) xs.
Proof.
  destruct xs as [|x xs]; [discriminate|]. simpl. intros [= <-].
  destruct (fold_Qmax_spec xs x) as (Hin & Hle & Hall). split.
  - destruct Hin as [->|Hin]; [now left|now right].
  - now constructor.
Qed.

Lemma min_list_spec xs m :
  min_list xs = Some m -> m ∈ xs /\ Forall (λ y, m <= y) xs.
Proof.
  destruct xs as [|x xs]; [discriminate|]. simpl. intros [= <-].
  destruct (fold_Qmin_spec xs x) as (Hin & Hle & Hall). split.
  - destruct Hin as [->|Hin]; [now left|now right].
  - now constructor.
Qed.

Lemma slice_last_but_one_app {A} (front : list A) (cur : A) (n : nat) :
  (1 <= n)%nat ->
  slice_last_but_one n (front ++ [cur]) = slice_last (n - 1) front.
Proof.
  intros Hn. unfold slice_last_but_one, slice_last.
  destruct n as [|n']; [lia|]. set (n := S n') in *. clearbody n.
  rewrite length_app. simpl length.
  destruct (Nat.le_gt_cases (length front + 1) n) as [Hbig|Hsmall].
  - replace (length front + 1 - n)%nat with 0%nat by lia.
    replace (length front - (n - 1))%nat with 0%nat by lia.
    rewrite !drop_0.
    replace (length front + 1 - 1 - 0)%nat with (length front + 0)%nat by lia.
    now rewrite take_app_add, take_0, app_nil_r.
  - replace (length front - (n - 1))%nat with (length front + 1 - n)%nat by lia.
    rewrite drop_app_le by lia.
    replace (length front + 1 - 1 - (length front + 1 - n))%nat
      with (length (drop (length front + 1 - n) front) + 0)%nat
      by (rewrite length_drop; lia).
    now rewrite take_app_add, take_0, app_nil_r.
Qed.

End Detection.

Section Sweeps.
Import LiveScanner.

Lemma above_max_iff xs v w :
  match max_list xs with
  | Some m => Qgtb v m && Qltb w m
  | None => false
  end = true <->
  Forall (λ x, x < v) xs /\ Exists (λ x, w < x) xs.
Proof.
  destruct (max_list xs) as [m|] eqn:E.
  - apply max_list_spec in E as [Hin Hall].
    rewrite andb_true_iff, Qgtb_gt, Qltb_lt. split.
    + intros [Hv Hw]. split.
      * eapply Forall_impl; [exact Hall|]. simpl. intros x Hx. lra.
      * apply Exists_exists. exists m. split; [exact Hin|exact Hw].
    + intros [Hv Hw]. split.
      * rewrite Forall_forall in Hv. now apply Hv.
      * apply Exists_exists in Hw as (x & Hx & Hwx).
        rewrite Forall_forall in Hall. specialize (Hall x Hx). simpl in Hall.
        lra.
  - destruct xs; [|discriminate]. split; [discriminate|].
    intros [_ Hex]. now apply Exists_nil in Hex.
Qed.

Lemma below_min_iff xs v w :
  match min_list xs with
  | Some m => Qltb v m && Qgtb w m
  | None => false
  end = true <->
  Forall (λ x, v < x) xs /\ Exists (λ x, x < w) xs.
Proof.
  destruct (min_list xs) as [m|] eqn:E.
  - apply min_list_spec in E as [Hin Hall].
    rewrite andb_true_iff, Qgtb_gt, Qltb_lt. split.
    + intros [Hv Hw]. split.
      * eapply Forall_impl; [exact Hall|]. simpl. intros x Hx. lra.
      * apply Exists_exists. exists m. split; [exact Hin|exact Hw].
    + intros [Hv Hw]. split.
      * rewrite Forall_forall in Hv. now apply Hv.
      * apply Exists_exists in Hw as (x & Hx & Hwx).
        rewrite Forall_forall in Hall. specialize (Hall x Hx). simpl in Hall.
        lra.
  - destruct xs; [|discriminate]. split; [discriminate|].
    intros [_ Hex]. now apply Exists_nil in Hex.
Qed.

Lemma detectSweep_last front cur lookback :
  (1 <= lookback)%nat ->
  let window := slice_last (lookback - 1) front in
  detectSweep (front ++ [cur]) lookback =
    Some (if match max_list (map high window) with
             | Some ph => Qgtb (high cur) ph && Qltb (close cur) ph
             | None => false
             end
          then BEARISH_SWEEP
          else if match min_list (map low window) with
                  | Some pl => Qltb (low cur) pl && Qgtb (close cur) pl
                  | None => false
                  end
          then BULLISH_SWEEP else NO_SWEEP).
Proof.
  intros Hl window. unfold detectSweep.
  rewrite idx_app_last. simpl.
  now rewrite (slice_last_but_one_app front cur lookback Hl).
Qed.

(** With [window] the (at most [lookback - 1]) candles before the current
    one: a bearish sweep is reported exactly when the current high is above
    every high of the window and the current close is below at least one of
    them; a bullish sweep exactly when that is not the case, the current
    low is below every low of the window and the close is above at least
    one of them.  With an empty window nothing is reported. *)
Theorem detectSweep_iff front cur lookback :
  (1 <= lookback)%nat ->
  let window := slice_last (lookback - 1) front in
  let broke_high :=
    Forall (λ c, high c < high cur) window /\
    Exists (λ c, close cur < high c) window in
  let broke_low :=
    Forall (λ c, low cur < low c) window /\
    Exists (λ c, low c < close cur) window in
  (detectSweep (front ++ [cur]) lookback = Some BEARISH_SWEEP <-> broke_high) /\
  (detectSweep (front ++ [cur]) lookback = Some BULLISH_SWEEP <->
     ~ broke_high /\ broke_low) /\
  (window = [] -> detectSweep (front ++ [cur]) lookback = Some NO_SWEEP).
Proof.
  intros Hl window broke_high broke_low.
  rewrite (detectSweep_last front cur lookback Hl). fold window.
  pose proof (above_max_iff (map high window) (high cur) (close cur)) as Hb.
  pose proof (below_min_iff (map low window) (low cur) (close cur)) as Hu.
  rewrite List.Forall_map, List.Exists_map in Hb, Hu.
  fold broke_high in Hb. fold broke_low in Hu.
  set (b := match max_list (map high window) with
            | Some ph => Qgtb (high cur) ph && Qltb (close cur) ph
            | None => false end) in *.
  set (u := match min_list (map low window) with
            | Some pl => Qltb (low cur) pl && Qgtb (close cur) pl
            | None => false end) in *.
  assert (Hempty : window = [] -> b = false /\ u = false).
  { intros Hw. split; apply not_true_is_false; intros T.
    - apply Hb in T as [_ Hex]. rewrite Hw in Hex. now apply Exists_nil in Hex.
    - apply Hu in T as [_ Hex]. rewrite Hw in Hex. now apply Exists_nil in Hex. }
  rewrite <- Hb, <- Hu. clearbody b u. split; [|split].
  - destruct b, u; split; intros; congruence.
  - destruct b, u; split; try (intros [? ?]); try split; congruence.
  - intros Hw. destruct (Hempty Hw) as [-> ->]. reflexivity.
Qed.

Lemma detectSweep_iff_witness :
  detectSweep ([mkCandle 0 5 9 4 6; mkCandle 1 6 8 5 7] ++ [mkCandle 2 7 10 6 8])
    10 = Some BEARISH_SWEEP.
Proof.
  destruct (detectSweep_iff [mkCandle 0 5 9 4 6; mkCandle 1 6 8 5 7]
              (mkCandle 2 7 10 6 8) 10) as ((_ & Hb) & _); [lia|].
  apply Hb. split.
  - repeat constructor.
  - apply Exists_cons_hd. reflexivity.
Defined.

End Sweeps.

(** ** Aggregation of ticks *)

Section TickAggregation.
Import LiveScanner.
Variable tz : Z.

Lemma last_cons {A} (x d : A) (l : list A) :
  List.last (x :: l) d = List.last l x.
Proof.
  revert x d. induction l as [|y l IH]; intros x d; [reflexivity|].
  change (List.last (x :: y :: l) d) with (List.last (y :: l) d).
  now rewrite !IH.
Qed.

Lemma run_same_bucket sym (ps : list (Q * Z)) : forall mm a,
  activeCandle mm !! sym = Some a ->
  Forall (λ pt, m5Start tz (snd pt) = time a) ps ->
  let mm' := run tz mm (ticks sym ps) in
  activeCandle mm' !! sym =
    Some (mkCandle (time a) (open a)
            (fold_left Qmax (map fst ps) (high a))
            (fold_left Qmin (map fst ps) (low a))
            (List.last (map fst ps) (close a))) /\
  (forall s, history mm' s = history mm s) /\
  (forall s, s <> sym -> activeCandle mm' !! s = activeCandle mm !! s).
Proof.
  induction ps as [|[p t] ps IH]; intros mm a Hact Hall.
  - simpl. split; [|now split]. rewrite Hact. now destruct a.
  - change (run tz mm (ticks sym ((p, t) :: ps)))
      with (run tz (fst (updateTick tz mm sym p t)) (ticks sym ps)).
    change (map fst ((p, t) :: ps)) with (p :: map fst ps).
    cbn [fold_left]. cbv zeta.
    apply Forall_cons in Hall as [Ht Hall]. simpl in Ht.
    pose proof (updateTick_same tz mm sym p t a Hact (eq_sym Ht)) as Hstep.
    set (mm1 := fst (updateTick tz mm sym p t)).
    assert (Hact1 : activeCandle mm1 !! sym = Some (touch a p)).
    { unfold mm1. rewrite Hstep. simpl. apply lookup_insert_eq. }
    destruct (IH mm1 (touch a p) Hact1 Hall) as (Ha & Hh & Ho).
    fold mm1. split; [|split].
    + rewrite Ha. rewrite (last_cons p (close a)).
      unfold touch. cbn [time open high low close].
      now rewrite high_update, low_update.
    + intros s. rewrite Hh. unfold mm1. rewrite Hstep. simpl.
      apply (history_initSymbol mm sym s).
    + intros s Hs. rewrite (Ho s Hs). unfold mm1. rewrite Hstep. simpl.
      now rewrite lookup_insert_ne.
Qed.

(** Ticks of one bucket, fed to a symbol that has no active candle yet,
    build the candle of that bucket: open is the first price, close the
    last, high is one of the prices and no price is above it, low is one of
    the prices and no price is below it.  Nothing is pushed on any history
    buffer and the other symbols' active candles stay as they are. *)
Theorem same_bucket_aggregation mm sym b p1 t1 (rest : list (Q * Z)) :
  activeCandle mm !! sym = None ->
  Forall (λ pt, m5Start tz (snd pt) = b) ((p1, t1) :: rest) ->
  let prices := p1 :: map fst rest in
  let mm' := run tz mm (ticks sym ((p1, t1) :: rest)) in
  exists c,
    activeCandle mm' !! sym = Some c /\
    time c = b /\ open c = p1 /\ close c = List.last prices p1 /\
    high c ∈ prices /\ Forall (λ p, p <= high c) prices /\
    low c ∈ prices /\ Forall (λ p, low c <= p) prices /\
    (forall s, history mm' s = history mm s) /\
    (forall s, s <> sym -> activeCandle mm' !! s = activeCandle mm !! s).
Proof.
  intros Hnone Hall prices mm'. subst mm'.
  change (run tz mm (ticks sym ((p1, t1) :: rest)))
    with (run tz (fst (updateTick tz mm sym p1 t1)) (ticks sym rest)).
  apply Forall_cons in Hall as [Hb Hall]. simpl in Hb.
  pose proof (updateTick_first tz mm sym p1 t1 Hnone) as Hstep.
  set (mm1 := fst (updateTick tz mm sym p1 t1)).
  assert (Hact1 : activeCandle mm1 !! sym = Some (newCandle b p1)).
  { unfold mm1. rewrite Hstep. simpl. rewrite Hb. apply lookup_insert_eq. }
  destruct (run_same_bucket sym rest mm1 (newCandle b p1) Hact1 Hall)
    as (Ha & Hh & Ho).
  unfold newCandle in Ha. cbn [time open high low close] in Ha.
  destruct (fold_Qmax_spec (map fst rest) p1) as (Hmi & Hml & Hma).
  destruct (fold_Qmin_spec (map fst rest) p1) as (Hni & Hnl & Hna).
  eexists. split; [exact Ha|]. cbn [time open high low close].
  split; [reflexivity|]. split; [reflexivity|].
  split; [unfold prices; now rewrite last_cons|].
  split; [destruct Hmi as [->|Hmi]; [now left|now right]|].
  split; [now constructor|].
  split; [destruct Hni as [->|Hni]; [now left|now right]|].
  split; [now constructor|]. split.
  - intros s. rewrite Hh. unfold mm1. rewrite Hstep. simpl.
    apply (history_initSymbol mm sym s).
  - intros s Hs. rewrite (Ho s Hs). unfold mm1. rewrite Hstep. simpl.
    now rewrite lookup_insert_ne.
Qed.

End TickAggregation.

Section TickAggregationExample.
Import LiveScanner.

Lemma same_bucket_aggregation_witness :
  activeCandle
    (run 0 constructor
       (ticks "EUR_USD" [(5, 600001%Z); (9, 600002%Z); (3, 600003%Z);
                         (4, 899999%Z)])) !! "EUR_USD"
  = Some (mkCandle 600000 5 9 3 4).
Proof.
  destruct (same_bucket_aggregation 0 constructor "EUR_USD" 600000 5 600001
              [(9, 600002%Z); (3, 600003%Z); (4, 899999%Z)])
    as (c & Hc & _).
  - reflexivity.
  - repeat constructor.
  - rewrite Hc. vm_compute in Hc. injection Hc as <-. reflexivity.
Defined.

End TickAggregationExample.

Section CandleInvariant.
Import LiveScanner.
Variable tz : Z.
Variable P : Candle -> Prop.
Hypothesis P_new : forall b p, P (newCandle b p).
Hypothesis P_touch : forall a p, P a -> P (touch a p).

Let holds (mm : MarketManager) : Prop :=
  forall sym c,
    (c ∈ history mm sym -> P c) /\ (activeCandle mm !! sym = Some c -> P c).

Lemma handle_candle_invariant mm r :
  holds mm ->
  (forall sym batch c, r = AddHistory sym batch -> c ∈ batch -> P c) ->
  holds (handle tz mm r).
Proof.
  intros Hinv Hbatch sym c.
  destruct (Hinv sym c) as [Hh Ha].
  destruct r as [sym0 batch|sym0 price t]; cbn [handle].
  - split.
    + rewrite history_addHistory. case_decide as Hs; [subst sym0|exact Hh].
      intros Hc. apply elem_of_keep300, elem_of_merged in Hc as [Hc|Hc];
        [now apply Hh|].
      now apply (Hbatch sym batch c).
    + rewrite addHistory_spec. simpl. exact Ha.
  - destruct (decide (sym = sym0)) as [->|Hne].
    + split.
      * rewrite history_updateTick.
        destruct (activeCandle mm !! sym0) as [active|] eqn:E; [|exact Hh].
        case_decide; [exact Hh|].
        intros Hc. apply elem_of_push_shift in Hc as [Hc| ->];
          [now apply Hh|].
        now apply (proj2 (Hinv sym0 active)).
      * destruct (activeCandle mm !! sym0) as [active|] eqn:E.
        -- destruct (decide (time active = m5Start tz t)) as [Heq|Hneq].
           ++ rewrite (updateTick_same tz mm sym0 price t active E Heq).
              simpl. rewrite lookup_insert_eq. intros [= <-].
              apply P_touch. now apply (proj2 (Hinv sym0 active)).
           ++ destruct (updateTick_bucket_change tz mm sym0 price t active
                          E Hneq) as (out & _ & ->).
              simpl. rewrite lookup_insert_eq. intros [= <-]. apply P_new.
        -- rewrite (updateTick_first tz mm sym0 price t E). simpl.
           rewrite lookup_insert_eq. intros [= <-]. apply P_new.
    + rewrite history_updateTick_other, activeCandle_updateTick_other
        by exact Hne. now split.
Qed.

Lemma run_candle_invariant rs : forall mm,
  holds mm ->
  (forall sym batch c, AddHistory sym batch ∈ rs -> c ∈ batch -> P c) ->
  holds (run tz mm rs).
Proof.
  induction rs as [|r rs IH]; intros mm Hinv Hbatch; [exact Hinv|].
  simpl. apply IH.
  - apply handle_candle_invariant; [exact Hinv|].
    intros sym batch c -> Hc. apply (Hbatch sym batch c); [now left|exact Hc].
  - intros sym batch c Hin Hc. apply (Hbatch sym batch c); [now right|exact Hc].
Qed.

Lemma constructor_candle_invariant : holds constructor.
Proof.
  intros sym c. split.
  - unfold history. simpl. rewrite lookup_empty. simpl. intros Hc.
    now apply elem_of_nil in Hc.
  - simpl. rewrite lookup_empty. discriminate.
Qed.

End CandleInvariant.

Section WellFormed.
Import LiveScanner.

Lemma newCandle_well_formed b p : well_formed (newCandle b p).
Proof. unfold well_formed, newCandle. simpl. repeat split; apply Qle_refl. Qed.

Lemma touch_well_formed a p : well_formed a -> well_formed (touch a p).
Proof.
  unfold well_formed, touch. cbn [time open high low close].
  rewrite high_update, low_update. intros (H1 & H2 & H3 & H4).
  pose proof (Q.le_max_l (high a) p). pose proof (Q.le_max_r (high a) p).
  pose proof (Q.le_min_l (low a) p). pose proof (Q.le_min_r (low a) p).
  repeat split; lra.
Qed.

(** If the candles delivered by the warm-ups are well formed (high and low
    enclose open and close), so is every candle the manager ever holds, in
    a history buffer or as an active candle: candles built from ticks are
    well formed by construction. *)
Theorem candles_stay_well_formed tz rs :
  (forall sym batch c, AddHistory sym batch ∈ rs -> c ∈ batch -> well_formed c) ->
  forall sym c,
    (c ∈ history (run tz constructor rs) sym -> well_formed c) /\
    (activeCandle (run tz constructor rs) !! sym = Some c -> well_formed c).
Proof.
  intros Hbatch.
  apply (run_candle_invariant tz well_formed newCandle_well_formed
           touch_well_formed rs constructor).
  - apply constructor_candle_invariant.
  - exact Hbatch.
Qed.

Lemma candles_stay_well_formed_witness :
  well_formed (mkCandle 600000 5 9 3 4).
Proof.
  apply (candles_stay_well_formed 0
           (ticks "EUR_USD" [(5, 600001%Z); (9, 600002%Z); (3, 600003%Z);
                             (4, 899999%Z)]) ) with (sym := "EUR_USD").
  - intros sym batch c Hin. exfalso.
    repeat (apply elem_of_cons in Hin as [Hin|Hin]; [discriminate Hin|]).
    now apply elem_of_nil in Hin.
  - vm_compute. reflexivity.
Defined.

End WellFormed.

(** ** Independence of symbols *)

Section Independence.
Import LiveScanner.
Variable tz : Z.

Lemma initSymbol_lookup mm sym :
  candles (initSymbol mm sym) !! sym = Some (history mm sym).
Proof.
  unfold initSymbol, history. destruct (candles mm !! sym) eqn:E; simpl.
  - now rewrite E.
  - now rewrite lookup_insert_eq.
Qed.

Lemma initSymbol_lookup_other mm sym s :
  s <> sym -> candles (initSymbol mm sym) !! s = candles mm !! s.
Proof.
  intros Hs. unfold initSymbol. destruct (candles mm !! sym); [reflexivity|].
  simpl. now rewrite lookup_insert_ne.
Qed.

Lemma candles_updateTick mm sym p t :
  candles (fst (updateTick tz mm sym p t)) !! sym =
    Some (history (fst (updateTick tz mm sym p t)) sym).
Proof.
  destruct (activeCandle mm !! sym) as [a|] eqn:E.
  - destruct (decide (time a = m5Start tz t)) as [Heq|Hne].
    + rewrite (updateTick_same tz mm sym p t a E Heq). unfold history. simpl.
      now rewrite initSymbol_lookup.
    + destruct (updateTick_bucket_change tz mm sym p t a E Hne)
        as (out & _ & ->). unfold history. simpl.
      now rewrite lookup_insert_eq.
  - rewrite (updateTick_first tz mm sym p t E). unfold history. simpl.
    now rewrite initSymbol_lookup.
Qed.

Lemma candles_updateTick_other mm sym p t s :
  s <> sym -> candles (fst (updateTick tz mm sym p t)) !! s = candles mm !! s.
Proof.
  intros Hs.
  destruct (activeCandle mm !! sym) as [a|] eqn:E.
  - destruct (decide (time a = m5Start tz t)) as [Heq|Hne].
    + rewrite (updateTick_same tz mm sym p t a E Heq). simpl.
      now apply initSymbol_lookup_other.
    + destruct (updateTick_bucket_change tz mm sym p t a E Hne)
        as (out & _ & ->). simpl. now rewrite lookup_insert_ne.
  - rewrite (updateTick_first tz mm sym p t E). simpl.
    now apply initSymbol_lookup_other.
Qed.

Lemma activeCandle_updateTick mm sym p t :
  activeCandle (fst (updateTick tz mm sym p t)) !! sym =
    Some match activeCandle mm !! sym with
         | Some a =>
             if decide (time a = m5Start tz t) then touch a p
             else newCandle (m5Start tz t) p
         | None => newCandle (m5Start tz t) p
         end.
Proof.
  destruct (activeCandle mm !! sym) as [a|] eqn:E.
  - destruct (decide (time a = m5Start tz t)) as [Heq|Hne].
    + rewrite (updateTick_same tz mm sym p t a E Heq). simpl.
      now rewrite lookup_insert_eq.
    + destruct (updateTick_bucket_change tz mm sym p t a E Hne)
        as (out & _ & ->). simpl. now rewrite lookup_insert_eq.
  - rewrite (updateTick_first tz mm sym p t E). simpl.
    now rewrite lookup_insert_eq.
Qed.

Lemma outputs_updateTick mm sym p t :
  snd (updateTick tz mm sym p t) =
    match activeCandle mm !! sym with
    | Some a =>
        if decide (time a = m5Start tz t) then []
        else match onCandleClose sym (push_shift (history mm sym) a) a with
             | Some out => [out]
             | None => []
             end
    | None => []
    end.
Proof.
  destruct (activeCandle mm !! sym) as [a|] eqn:E.
  - destruct (decide (time a = m5Start tz t)) as [Heq|Hne].
    + now rewrite (updateTick_same tz mm sym p t a E Heq).
    + destruct (updateTick_bucket_change tz mm sym p t a E Hne)
        as (out & Hout & ->). now rewrite Hout.
  - now rewrite (updateTick_first tz mm sym p t E).
Qed.

Lemma handle_other mm r s :
  s <> sym_of r ->
  candles (handle tz mm r) !! s = candles mm !! s /\
  activeCandle (handle tz mm r) !! s = activeCandle mm !! s.
Proof.
  intros Hs. destruct r as [sym batch|sym p t]; cbn [handle sym_of] in *.
  - rewrite addHistory_spec. simpl. split; [|reflexivity].
    now rewrite lookup_insert_ne.
  - split; [now apply candles_updateTick_other|].
    now apply activeCandle_updateTick_other.
Qed.

Lemma handle_slice mm mm' r :
  candles mm !! sym_of r = candles mm' !! sym_of r ->
  activeCandle mm !! sym_of r = activeCandle mm' !! sym_of r ->
  candles (handle tz mm r) !! sym_of r = candles (handle tz mm' r) !! sym_of r /\
  activeCandle (handle tz mm r) !! sym_of r
    = activeCandle (handle tz mm' r) !! sym_of r.
Proof.
  intros Hc Ha.
  assert (Hh : history mm (sym_of r) = history mm' (sym_of r)).
  { unfold history. now rewrite Hc. }
  destruct r as [sym batch|sym p t]; cbn [handle sym_of] in *.
  - rewrite !addHistory_spec. simpl. rewrite !lookup_insert_eq, Hh.
    split; [reflexivity|exact Ha].
  - rewrite !candles_updateTick, !history_updateTick,
      !activeCandle_updateTick, Hh, Ha. split; reflexivity.
Qed.

Lemma MarketManager_eq (a b : MarketManager) :
  (forall s, candles a !! s = candles b !! s) ->
  (forall s, activeCandle a !! s = activeCandle b !! s) ->
  a = b.
Proof.
  destruct a as [ca aa], b as [cb ab]. simpl. intros Hc Ha.
  f_equal; now apply map_eq.
Qed.

(** Requests about different symbols commute: the manager ends in the same
    state whichever is handled first, and what a tick logs does not depend
    on requests handled for other symbols before it. *)
Theorem symbols_independent mm r1 r2 :
  sym_of r1 <> sym_of r2 ->
  handle tz (handle tz mm r1) r2 = handle tz (handle tz mm r2) r1 /\
  (forall p t,
     snd (updateTick tz (handle tz mm r1) (sym_of r2) p t)
       = snd (updateTick tz mm (sym_of r2) p t)).
Proof.
  intros Hne.
  assert (Hslice : forall m r r' s,
            sym_of r <> sym_of r' -> s = sym_of r ->
            candles (handle tz (handle tz m r') r) !! s
              = candles (handle tz m r) !! s /\
            activeCandle (handle tz (handle tz m r') r) !! s
              = activeCandle (handle tz m r) !! s).
  { intros m r r' s Hd ->.
    destruct (handle_other m r' (sym_of r) Hd) as [Hc Ha].
    now apply handle_slice. }
  split.
  - apply MarketManager_eq; intros s.
    + destruct (decide (s = sym_of r1)) as [E1|N1];
        [|destruct (decide (s = sym_of r2)) as [E2|N2]].
      * rewrite (proj1 (handle_other (handle tz mm r1) r2 s ltac:(congruence))).
        symmetry. apply (Hslice mm r1 r2 s); congruence.
      * rewrite (proj1 (handle_other (handle tz mm r2) r1 s N1)).
        apply (Hslice mm r2 r1 s); congruence.
      * rewrite (proj1 (handle_other (handle tz mm r1) r2 s N2)),
          (proj1 (handle_other (handle tz mm r2) r1 s N1)),
          (proj1 (handle_other mm r1 s N1)),
          (proj1 (handle_other mm r2 s N2)). reflexivity.
    + destruct (decide (s = sym_of r1)) as [E1|N1];
        [|destruct (decide (s = sym_of r2)) as [E2|N2]].
      * rewrite (proj2 (handle_other (handle tz mm r1) r2 s ltac:(congruence))).
        symmetry. apply (Hslice mm r1 r2 s); congruence.
      * rewrite (proj2 (handle_other (handle tz mm r2) r1 s N1)).
        apply (Hslice mm r2 r1 s); congruence.
      * rewrite (proj2 (handle_other (handle tz mm r1) r2 s N2)),
          (proj2 (handle_other (handle tz mm r2) r1 s N1)),
          (proj2 (handle_other mm r1 s N1)),
          (proj2 (handle_other mm r2 s N2)). reflexivity.
  - intros p t. rewrite !outputs_updateTick.
    destruct (handle_other mm r1 (sym_of r2) ltac:(congruence)) as [Hc Ha].
    unfold history. now rewrite Hc, Ha.
Qed.

End Independence.

Section IndependenceExample.
Import LiveScanner.

Lemma symbols_independent_witness :
  let mm := run 0 constructor [UpdateTick "EUR_USD" 5 1] in
  handle 0 (handle 0 mm (UpdateTick "EUR_USD" 6 300001))
    (AddHistory "BTCUSDT" [mkCandle 0 1 2 1 2])
  = handle 0 (handle 0 mm (AddHistory "BTCUSDT" [mkCandle 0 1 2 1 2]))
      (UpdateTick "EUR_USD" 6 300001).
Proof.
  intros mm.
  apply (symbols_independent 0 mm (UpdateTick "EUR_USD" 6 300001)
           (AddHistory "BTCUSDT" [mkCandle 0 1 2 1 2])).
  simpl. discriminate.
Defined.

End IndependenceExample.

(** ** When a signal is logged *)

Section SignalGate.
Import LiveScanner.

Lemma sma_some data period :
  (period <= length data)%nat -> is_Some (sma data period).
Proof.
  intros Hlen. unfold sma.
  destruct (Nat.ltb_spec (length data) period); [lia|eauto].
Qed.

(** A signal is logged only on at least 200 candles, only with the trend
    filter passed and a confirmation in the same direction: a BUY needs
    SMA20 > SMA200, close > SMA200 and a BULLISH pattern or a bullish sweep;
    a SELL needs SMA20 < SMA200, close < SMA200 and a BEARISH pattern or a
    bearish sweep.  The record then carries the matching trend label, the
    symbol, timeframe M5 and the flat strength score 85. *)
Theorem signal_requires_trend sym hist candle s :
  onCandleClose sym hist candle = Some (OutSignal s) ->
  (200 <= length hist)%nat /\
  symbol s = sym /\ timeframe s = "M5"%string /\ strength_score s = 85%Z /\
  exists m20 m200 pattern sweep,
    sma (map close hist) 20 = Some m20 /\
    sma (map close hist) 200 = Some m200 /\
    detectPattern hist = Some pattern /\
    detectSweep hist 10 = Some sweep /\
    ((signal s = BUY /\ trend s = "UPTREND"%string /\
      m200 < m20 /\ m200 < close candle /\
      (pattern = BULLISH \/ sweep = BULLISH_SWEEP))
     \/
     (signal s = SELL /\ trend s = "DOWNTREND"%string /\
      m20 < m200 /\ close candle < m200 /\
      (pattern = BEARISH \/ sweep = BEARISH_SWEEP))).
Proof.
  intros H. unfold onCandleClose in H.
  destruct (Nat.ltb_spec (length hist) 200) as [|Hlen]; [discriminate|].
  destruct (sma_some (map close hist) 20) as [m20 E20];
    [rewrite length_map; lia|].
  destruct (sma_some (map close hist) 200) as [m200 E200];
    [rewrite length_map; lia|].
  rewrite E20, E200 in H. cbn [toNumber] in H.
  destruct (detectPattern hist) as [pattern|]; [|discriminate].
  destruct (detectSweep hist 10) as [sweep|]; [|discriminate].
  cbn [mbind option_bind] in H.
  destruct (Qgtb m20 m200 && Qgtb (close candle) m200) eqn:Up;
    destruct (Qltb m20 m200 && Qltb (close candle) m200) eqn:Down;
    destruct pattern, sweep; simpl in H; try discriminate;
    injection H as <-; cbn [symbol timeframe strength_score signal trend];
    (split; [exact Hlen|]); do 3 (split; [reflexivity|]);
    eexists m20, m200, _, _; (split; [exact E20|]); (split; [exact E200|]);
    do 2 (split; [reflexivity|]);
    try apply andb_true_iff in Up as [U1 U2];
    try apply andb_true_iff in Down as [D1 D2];
    try apply Qgtb_gt in U1; try apply Qgtb_gt in U2;
    try apply Qltb_lt in D1; try apply Qltb_lt in D2;
    first [ left; split; [reflexivity|]; split; [reflexivity|];
            split; [assumption|]; split; [assumption|]; tauto
          | right; split; [reflexivity|]; split; [reflexivity|];
            split; [assumption|]; split; [assumption|]; tauto ].
Qed.

Lemma signal_requires_trend_witness :
  exists s m200,
    onCandleClose "BTCUSDT" Samples.swing200 Samples.hammer
      = Some (OutSignal s) /\
    sma (map close Samples.swing200) 200 = Some m200 /\
    m200 < close Samples.hammer.
Proof.
  destruct (onCandleClose "BTCUSDT" Samples.swing200 Samples.hammer)
    as [[s|sym tr rsn]|] eqn:E; try (vm_compute in E; discriminate E).
  destruct (signal_requires_trend "BTCUSDT" Samples.swing200 Samples.hammer
              s E) as (_ & _ & _ & _ & m20 & m200 & p & w & _ & H200 & _ & _ & Hd).
  exists s, m200. split; [reflexivity|]. split; [exact H200|].
  destruct Hd as [(_ & _ & _ & Hc & _)|(Hsell & _)]; [exact Hc|].
  vm_compute in E. injection E as <-. discriminate Hsell.
Defined.

End SignalGate.

(** ** Warm-up merges *)

Section WarmUp.
Import LiveScanner.

Lemma insert_by_time_front c l :
  Forall (λ d, (time c <= time d)%Z) l -> insert_by_time c l = c :: l.
Proof.
  destruct l as [|d l]; [reflexivity|]. intros Hall.
  apply Forall_cons in Hall as [Hd _]. simpl.
  destruct (Z.ltb_spec (time d) (time c)); [lia|reflexivity].
Qed.

(** Sorting a time-ordered buffer leaves it as it is (the sort is stable). *)
Lemma sort_by_time_id l : time_ordered l -> sort_by_time l = l.
Proof.
  unfold time_ordered. induction l as [|c l IH]; [reflexivity|].
  intros Hl. apply StronglySorted_cons in Hl as [Hc Hl].
  simpl. rewrite (IH Hl). now apply insert_by_time_front.
Qed.

Lemma keep300_small l : (length l <= 300)%nat -> keep300 l = l.
Proof.
  intros Hl. unfold keep300. destruct (Nat.ltb_spec 300 (length l)); [lia|].
  reflexivity.
Qed.

Lemma times_of_merged hist batch c :
  c ∈ batch -> time c ∈ map time (merged hist batch).
Proof.
  intros Hc. unfold merged.
  eapply elem_of_Permutation_proper;
    [apply (fmap_Permutation time), sort_by_time_perm|].
  rewrite map_app. apply elem_of_app.
  destruct (decide (time c ∈ map time hist)) as [Hin|Hout]; [now left|right].
  apply (list_elem_of_fmap_2 time). apply list_elem_of_filter. split; [|exact Hc].
  intros Hset. apply Hout. now apply elem_of_list_to_set in Hset.
Qed.

(** A warm-up that does not overflow the buffer can be repeated without
    effect (for instance after a reconnect): the second merge finds every
    bucket time of the batch already buffered. *)
Theorem addHistory_idempotent mm sym batch :
  (length (merged (history mm sym) batch) <= 300)%nat ->
  addHistory (addHistory mm sym batch) sym batch = addHistory mm sym batch.
Proof.
  intros Hlen.
  rewrite (addHistory_spec (addHistory mm sym batch)).
  rewrite history_addHistory, decide_True by reflexivity.
  rewrite (keep300_small _ Hlen).
  rewrite (addHistory_skips_buffered (merged (history mm sym) batch) batch)
    by (intros c Hc; now apply times_of_merged).
  rewrite sort_by_time_id by apply merged_time_ordered.
  rewrite (keep300_small _ Hlen).
  rewrite addHistory_spec. simpl. rewrite (keep300_small _ Hlen).
  now rewrite insert_insert_eq.
Qed.

Lemma addHistory_idempotent_witness :
  let mm := run 0 constructor
              [AddHistory "BTCUSDT" [mkCandle 300000 2 3 1 2]] in
  let batch := [mkCandle 600000 5 6 4 5; mkCandle 300000 9 9 9 9;
                mkCandle 0 1 2 1 2] in
  addHistory (addHistory mm "BTCUSDT" batch) "BTCUSDT" batch
  = addHistory mm "BTCUSDT" batch.
Proof.
  intros mm batch. apply (addHistory_idempotent mm "BTCUSDT" batch).
  vm_compute. lia.
Defined.

(** What a warm-up that does not overflow leaves in the buffer: the candles
    that were there, plus the candles of the batch whose bucket time was not
    buffered; a buffered candle is never replaced by a batch candle of the
    same bucket time.  The buffer is time-ordered afterwards. *)
Theorem addHistory_contents mm sym batch :
  (length (merged (history mm sym) batch) <= 300)%nat ->
  time_ordered (history (addHistory mm sym batch) sym) /\
  forall c,
    c ∈ history (addHistory mm sym batch) sym <->
    c ∈ history mm sym \/
    (c ∈ batch /\ time c ∉ map time (history mm sym)).
Proof.
  intros Hlen. rewrite history_addHistory, decide_True by reflexivity.
  rewrite (keep300_small _ Hlen). split; [apply merged_time_ordered|].
  intros c. unfold merged.
  rewrite sort_by_time_perm, elem_of_app, list_elem_of_filter.
  rewrite elem_of_list_to_set. tauto.
Qed.

Lemma addHistory_contents_witness :
  let mm := run 0 constructor
              [AddHistory "BTCUSDT" [mkCandle 300000 2 3 1 2]] in
  let batch := [mkCandle 600000 5 6 4 5; mkCandle 300000 9 9 9 9] in
  mkCandle 600000 5 6 4 5 ∈ history (addHistory mm "BTCUSDT" batch) "BTCUSDT".
Proof.
  intros mm batch.
  destruct (addHistory_contents mm "BTCUSDT" batch) as [_ Hc];
    [vm_compute; lia|].
  apply Hc. right. split; [now left|].
  vm_compute. intros Hin. apply list_elem_of_singleton in Hin. discriminate Hin.
Defined.

End WarmUp.

(** ** Buckets *)

Section Buckets.
Import LiveScanner.

(** With a local offset that is a multiple of five minutes, [m5Start] is a
    multiple of 300000 ms, the tick lies in the five minutes that start
    there, and the bucket start is its own bucket start. *)
Theorem m5Start_window tz t :
  (300000 | tz)%Z ->
  (300000 | m5Start tz t)%Z /\
  (m5Start tz t <= t < m5Start tz t + 300000)%Z /\
  m5Start tz (m5Start tz t) = m5Start tz t.
Proof.
  intros Htz. rewrite !(m5Start_bucket tz _ Htz).
  pose proof (Z.mod_pos_bound t 300000 ltac:(lia)) as Hb.
  pose proof (Z.div_mod t 300000 ltac:(lia)) as Hd.
  assert (Hm : ((t - t mod 300000) mod 300000 = 0)%Z).
  { replace (t - t mod 300000)%Z with (t / 300000 * 300000)%Z by lia.
    apply Z.mod_mul. lia. }
  split; [|split].
  - exists (t / 300000)%Z. lia.
  - lia.
  - rewrite Hm. lia.
Qed.

Lemma m5Start_window_witness :
  (m5Start 19800000 1234567 <= 1234567 < m5Start 19800000 1234567 + 300000)%Z.
Proof.
  apply (m5Start_window 19800000 1234567). exists 66%Z. reflexivity.
Defined.

(** The OANDA streamer's bucket function agrees with the live scanner's on
    instants from 1970 on.  Before 1970 the truncating remainder makes it
    round toward zero: off a bucket boundary it returns the start of the
    next bucket. *)
Theorem bucket_functions_agree tz t :
  (300000 | tz)%Z ->
  ((0 <= t)%Z -> OandaStreamer.getM5BucketStart t = m5Start tz t) /\
  ((t < 0)%Z -> (t mod 300000 <> 0)%Z ->
   OandaStreamer.getM5BucketStart t = (m5Start tz t + 300000)%Z).
Proof.
  intros Htz. rewrite (m5Start_bucket tz t Htz).
  unfold OandaStreamer.getM5BucketStart, OandaStreamer.M5_MS.
  change (5 * 60 * 1000)%Z with 300000%Z. split.
  - intros Hpos. rewrite Z.rem_mod_nonneg by lia. reflexivity.
  - intros Hneg Hnz.
    assert (Hrem : Z.rem t 300000 = (t mod 300000 - 300000)%Z).
    { rewrite <- (Z.opp_involutive t) at 1.
      rewrite Z.rem_opp_l by lia.
      rewrite Z.rem_mod_nonneg by lia.
      rewrite Z.mod_opp_l_nz by lia. lia. }
    lia.
Qed.

Lemma bucket_functions_agree_witness :
  OandaStreamer.getM5BucketStart 1234567 = m5Start 0 1234567.
Proof.
  apply (bucket_functions_agree 0 1234567); [exists 0%Z; reflexivity|lia].
Defined.

End Buckets.

(** ** The OANDA streamer over a run *)

Section StreamerRun.
Import OandaStreamer.

Lemma getM5BucketStart_aligned ms : (300000 | getM5BucketStart ms)%Z.
Proof.
  unfold getM5BucketStart, M5_MS. change (5 * 60 * 1000)%Z with 300000%Z.
  exists (ms ÷ 300000)%Z. pose proof (Z.quot_rem' ms 300000). lia.
Qed.

Lemma fresh_ok p : ohlc_ok p p p p.
Proof. unfold ohlc_ok. repeat split; apply Qle_refl. Qed.

Lemma update_ok candle p :
  ohlc_ok (open candle) (high candle) (low candle) (close candle) ->
  ohlc_ok (open (update candle p)) (high (update candle p))
    (low (update candle p)) (close (update candle p)).
Proof.
  unfold ohlc_ok, update. cbn [open high low close].
  rewrite high_update, low_update. intros (H1 & H2 & H3 & H4).
  pose proof (Q.le_max_l (high candle) p). pose proof (Q.le_max_r (high candle) p).
  pose proof (Q.le_min_l (low candle) p). pose proof (Q.le_min_r (low candle) p).
  repeat split; lra.
Qed.

(** Replacing the candle of [sym] by one that is aligned, well formed and
    not earlier keeps the invariant. *)
Lemma inv_replace acs out sym c' :
  streamer_inv acs out ->
  (300000 | bucketTime c')%Z ->
  ohlc_ok (open c') (high c') (low c') (close c') ->
  (forall c, acs !! sym = Some c -> (bucketTime c <= bucketTime c')%Z) ->
  (acs !! sym = None -> of_symbol sym out = []) ->
  streamer_inv (<[sym := c']> acs) out.
Proof.
  intros [Ha Hk Hb Hs He] Hal Hok Hle Hnone. split.
  - intros s c. destruct (decide (sym = s)) as [->|Hne].
    + rewrite lookup_insert_eq. now intros [= <-].
    + rewrite lookup_insert_ne by exact Hne. apply Ha.
  - intros s c. destruct (decide (sym = s)) as [->|Hne].
    + rewrite lookup_insert_eq. now intros [= <-].
    + rewrite lookup_insert_ne by exact Hne. apply Hk.
  - intros e Hin. destruct (Hb e Hin) as (c & Hc & Hle').
    destruct (decide (sym = e_symbol e)) as [E|Hne].
    + exists c'. rewrite <- E, lookup_insert_eq. split; [reflexivity|].
      rewrite <- E in Hc. specialize (Hle c Hc). lia.
    + exists c. now rewrite lookup_insert_ne.
  - exact Hs.
  - exact He.
Qed.

Lemma inv_no_candle acs out sym :
  streamer_inv acs out -> acs !! sym = None -> of_symbol sym out = [].
Proof.
  intros [_ _ Hb _ _] Hnone. unfold of_symbol.
  destruct (filter (λ e, e_symbol e = sym) out) as [|e l] eqn:E; [reflexivity|].
  assert (Hin : e ∈ filter (λ e, e_symbol e = sym) out) by (rewrite E; now left).
  apply list_elem_of_filter in Hin as [Hsym Hin].
  destruct (Hb e Hin) as (c & Hc & _). rewrite Hsym in Hc. congruence.
Qed.

Lemma inv_emit acs out sym candle :
  streamer_inv acs out ->
  acs !! sym = Some candle ->
  forall c',
    (300000 | bucketTime c')%Z ->
    ohlc_ok (open c') (high c') (low c') (close c') ->
    (bucketTime candle < bucketTime c')%Z ->
    streamer_inv (<[sym := c']> acs) (out ++ [closeCandle sym candle]).
Proof.
  intros Hinv Hc c' Hal Hok Hlt.
  pose proof Hinv as [Ha Hk Hb Hs He].
  assert (Hstep : (bucketTime candle + 300000 <= bucketTime c')%Z).
  { destruct (Ha sym candle Hc) as [k Hk'], Hal as [k' Hk''].
    rewrite Hk', Hk'' in *. lia. }
  split.
  - intros s c. destruct (decide (sym = s)) as [->|Hne].
    + rewrite lookup_insert_eq. now intros [= <-].
    + rewrite lookup_insert_ne by exact Hne. apply Ha.
  - intros s c. destruct (decide (sym = s)) as [->|Hne].
    + rewrite lookup_insert_eq. now intros [= <-].
    + rewrite lookup_insert_ne by exact Hne. apply Hk.
  - intros e Hin. apply elem_of_app in Hin as [Hin|Hin].
    + destruct (Hb e Hin) as (c & Hce & Hle).
      destruct (decide (sym = e_symbol e)) as [E|Hne].
      * exists c'. rewrite <- E, lookup_insert_eq. split; [reflexivity|].
        rewrite <- E, Hc in Hce. injection Hce as <-. lia.
      * exists c. now rewrite lookup_insert_ne.
    + apply list_elem_of_singleton in Hin as ->. exists c'.
      unfold closeCandle. cbn [e_symbol e_time].
      rewrite lookup_insert_eq. split; [reflexivity|].
      unfold M5_MS. lia.
  - intros s. unfold of_symbol. rewrite filter_app, map_app.
    destruct (decide (sym = s)) as [<-|Hne].
    + rewrite filter_cons, decide_True by reflexivity.
      rewrite filter_nil. apply StronglySorted_app. split; [|split].
      * intros t1 t2 H1 H2. apply list_elem_of_singleton in H2 as ->.
        apply (list_elem_of_fmap e_time) in H1 as (e & -> & He1).
        apply list_elem_of_filter in He1 as [Hsym He1].
        destruct (Hb e He1) as (c & Hce & Hle).
        rewrite Hsym, Hc in Hce. injection Hce as <-.
        unfold closeCandle. cbn [e_time]. unfold M5_MS. lia.
      * apply Hs.
      * repeat constructor.
    + rewrite filter_cons, decide_False by exact Hne.
      rewrite filter_nil. simpl. rewrite app_nil_r. apply Hs.
  - intros e Hin. apply elem_of_app in Hin as [Hin|Hin]; [now apply He|].
    apply list_elem_of_singleton in Hin as ->.
    unfold closeCandle. cbn [e_time e_open e_high e_low e_close]. split.
    + destruct (Ha sym candle Hc) as [k Hk']. exists (k + 1)%Z.
      unfold M5_MS. lia.
    + now apply (Hk sym).
Qed.

Lemma processLine_inv acs out line :
  streamer_inv acs out ->
  streamer_inv (fst (processLine acs line)) (out ++ snd (processLine acs line)).
Proof.
  intros Hinv. unfold processLine.
  destruct line as [| |data|]; simpl; rewrite ?app_nil_r; try exact Hinv.
  destruct (midPrice data) as [price|]; simpl; rewrite ?app_nil_r;
    [|exact Hinv].
  destruct (acs !! instrument data) as [candle|] eqn:Hc.
  - destruct (Z.ltb_spec (bucketTime candle) (getM5BucketStart (time data)))
      as [Hlt|Hge]; simpl; rewrite ?app_nil_r.
    + apply inv_emit; try assumption; [|apply fresh_ok].
      apply getM5BucketStart_aligned.
    + apply inv_replace; try assumption.
      * apply (inv_aligned _ _ Hinv _ _ Hc).
      * apply update_ok, (inv_ok _ _ Hinv _ _ Hc).
      * intros c Hc'. rewrite Hc in Hc'. injection Hc' as <-. simpl. lia.
      * intros Hn. congruence.
  - simpl. rewrite app_nil_r. apply inv_replace; try assumption.
    + apply getM5BucketStart_aligned.
    + apply fresh_ok.
    + intros c Hc'. congruence.
    + intros _. now apply inv_no_candle with acs.
Qed.

Lemma runLines_inv lines : forall acs out,
  streamer_inv acs out ->
  streamer_inv (fst (fold_left lineStep lines (acs, out)))
    (snd (fold_left lineStep lines (acs, out))).
Proof.
  induction lines as [|line lines IH]; intros acs out Hinv; [exact Hinv|].
  cbn [fold_left]. unfold lineStep at 2. cbn [fst snd].
  apply IH. now apply processLine_inv.
Qed.

Lemma empty_streamer_inv : streamer_inv ∅ [].
Proof.
  split.
  - intros s c. now rewrite lookup_empty.
  - intros s c. now rewrite lookup_empty.
  - intros e He. now apply elem_of_nil in He.
  - intros s. constructor.
  - intros e He. now apply elem_of_nil in He.
Qed.

(** Started with no candle, the OANDA streamer emits, for each symbol,
    records whose time stamps are multiples of five minutes and strictly
    increase: a bucket of a symbol is never emitted twice. *)
Theorem streamer_emits_each_bucket_once lines sym :
  let out := snd (runLines ∅ lines) in
  StronglySorted Z.lt (map e_time (of_symbol sym out)) /\
  Forall (λ e, (300000 | e_time e)%Z) out.
Proof.
  intros out. pose proof (runLines_inv lines ∅ [] empty_streamer_inv) as Hinv.
  fold (runLines ∅ lines) in Hinv. fold out in Hinv.
  split; [apply (inv_sorted _ _ Hinv)|].
  apply Forall_forall. intros e He. apply (inv_emitted_ok _ _ Hinv e He).
Qed.

(** Every record the OANDA streamer emits is a well-formed candle: its low
    is not above and its high not below its open and close. *)
Theorem streamer_emits_well_formed lines :
  Forall (λ e, e_low e <= e_open e /\ e_low e <= e_close e /\
               e_open e <= e_high e /\ e_close e <= e_high e)
    (snd (runLines ∅ lines)).
Proof.
  pose proof (runLines_inv lines ∅ [] empty_streamer_inv) as Hinv.
  fold (runLines ∅ lines) in Hinv.
  apply Forall_forall. intros e He.
  apply (inv_emitted_ok _ _ Hinv e He).
Qed.

End StreamerRun.

Section StreamerFold.
Import OandaStreamer.

Lemma fold_not_later sym (rest : list (PriceData * Q)) : forall acs out a,
  acs !! sym = Some a ->
  Forall (λ dp, instrument (fst dp) = sym /\ midPrice (fst dp) = Some (snd dp) /\
                (getM5BucketStart (time (fst dp)) <= bucketTime a)%Z) rest ->
  let st := fold_left lineStep
              (map (λ dp, PRICE (fst dp)) rest) (acs, out) in
  fst st !! sym =
    Some (mkActive (bucketTime a) (open a)
            (fold_left Qmax (map snd rest) (high a))
            (fold_left Qmin (map snd rest) (low a))
            (List.last (map snd rest) (close a))) /\
  snd st = out /\
  (forall s, s <> sym -> fst st !! s = acs !! s).
Proof.
  induction rest as [|[d p] rest IH]; intros acs out a Ha Hall st; subst st.
  - simpl. split; [|now split]. rewrite Ha. now destruct a.
  - apply Forall_cons in Hall as [(Hs & Hp & Hb) Hall]. simpl in Hs, Hp, Hb.
    change (map (λ dp, PRICE (fst dp)) ((d, p) :: rest))
      with (PRICE d :: map (λ dp : PriceData * Q, PRICE (fst dp)) rest).
    change (map snd ((d, p) :: rest)) with (p :: map snd rest).
    subst sym.
    set (a1 := mkActive (bucketTime a) (open a) (Qmax (high a) p)
                 (Qmin (low a) p) p).
    assert (Hstep : lineStep (acs, out) (PRICE d)
                    = (<[instrument d := a1]> acs, out)).
    { unfold lineStep. cbn [fst snd].
      rewrite (processLine_not_later acs d p a Hp Ha Hb).
      cbn [fst snd]. now rewrite app_nil_r. }
    cbn [fold_left]. rewrite Hstep.
    destruct (IH (<[instrument d := a1]> acs) out a1) as (H1 & H2 & H3).
    + apply lookup_insert_eq.
    + exact Hall.
    + split; [|split].
      * rewrite H1. unfold a1. cbn [bucketTime open high low close].
        now rewrite (last_cons p (close a)).
      * exact H2.
      * intros s Hne. rewrite (H3 s Hne). now rewrite lookup_insert_ne.
Qed.

(** The OANDA streamer folds every priced tick that does not start a later
    bucket into the candle in progress (late ticks included): after a first
    tick and any number of such ticks the candle has the first tick's
    bucket and price as time and open, the last price as close, the largest
    price as high and the smallest as low, and nothing has been emitted. *)
Theorem streamer_folds_ticks acs sym d1 p1 (rest : list (PriceData * Q)) :
  acs !! sym = None ->
  instrument d1 = sym -> midPrice d1 = Some p1 ->
  Forall (λ dp, instrument (fst dp) = sym /\ midPrice (fst dp) = Some (snd dp) /\
                (getM5BucketStart (time (fst dp))
                   <= getM5BucketStart (time d1))%Z) rest ->
  let r := runLines acs (PRICE d1 :: map (λ dp, PRICE (fst dp)) rest) in
  let prices := p1 :: map snd rest in
  exists c,
    fst r !! sym = Some c /\ snd r = [] /\
    bucketTime c = getM5BucketStart (time d1) /\
    open c = p1 /\ close c = List.last prices p1 /\
    high c ∈ prices /\ Forall (λ p, p <= high c) prices /\
    low c ∈ prices /\ Forall (λ p, low c <= p) prices.
Proof.
  intros Hnone Hs Hp Hall r prices. subst r. unfold runLines.
  assert (Hstep : lineStep (acs, []) (PRICE d1) =
            (<[sym := mkActive (getM5BucketStart (time d1)) p1 p1 p1 p1]> acs,
             [])).
  { unfold lineStep, processLine. cbn [fst snd].
    rewrite Hp, Hs, Hnone. reflexivity. }
  cbn [fold_left]. rewrite Hstep.
  destruct (fold_not_later sym rest
              (<[sym := mkActive (getM5BucketStart (time d1)) p1 p1 p1 p1]> acs)
              [] (mkActive (getM5BucketStart (time d1)) p1 p1 p1 p1))
    as (H1 & H2 & _).
  - apply lookup_insert_eq.
  - exact Hall.
  - cbn [bucketTime open high low close] in H1.
    destruct (fold_Qmax_spec (map snd rest) p1) as (Hmi & Hml & Hma).
    destruct (fold_Qmin_spec (map snd rest) p1) as (Hni & Hnl & Hna).
    eexists. split; [exact H1|]. split; [exact H2|].
    cbn [bucketTime open high low close].
    split; [reflexivity|]. split; [reflexivity|].
    split; [unfold prices; now rewrite last_cons|].
    split; [destruct Hmi as [->|Hmi]; [now left|now right]|].
    split; [now constructor|].
    split; [destruct Hni as [->|Hni]; [now left|now right]|].
    now constructor.
Qed.

Lemma streamer_folds_ticks_witness :
  let d1 := mkPriceData "EUR_USD" 600001 [4] [6] None None in
  let d2 := mkPriceData "EUR_USD" 1 [] [] (Some 8) (Some 10) in
  exists c,
    fst (runLines ∅ [PRICE d1; PRICE d2]) !! "EUR_USD" = Some c /\
    snd (runLines ∅ [PRICE d1; PRICE d2]) = [] /\
    bucketTime c = 600000%Z.
Proof.
  intros d1 d2.
  destruct (streamer_folds_ticks ∅ "EUR_USD" d1 ((4 + 6) / 2)
              [(d2, (8 + 10) / 2)]) as (c & Hc & Ho & Hb & _).
  - apply lookup_empty.
  - reflexivity.
  - reflexivity.
  - repeat constructor. vm_compute. discriminate.
  - exists c. split; [exact Hc|]. split; [exact Ho|]. rewrite Hb.
    reflexivity.
Defined.

End StreamerFold.

(** ** What a tick logs *)

Section TickLog.
Import LiveScanner.

(** A tick logs at most one record, and it logs one exactly when the symbol
    has an active candle of another bucket (the tick closes it). *)
Theorem tick_logs_iff tz mm sym p t :
  (length (snd (updateTick tz mm sym p t)) <= 1)%nat /\
  (snd (updateTick tz mm sym p t) <> [] <->
   exists a, activeCandle mm !! sym = Some a /\ time a <> m5Start tz t).
Proof.
  rewrite outputs_updateTick.
  destruct (activeCandle mm !! sym) as [a|] eqn:E.
  - destruct (decide (time a = m5Start tz t)) as [Heq|Hne].
    + split; [simpl; lia|]. split; [congruence|].
      intros (a' & [= <-] & Hne). contradiction.
    + destruct (onCandleClose_total sym (push_shift (history mm sym) a) a)
        as [out ->].
      split; [simpl; lia|]. split; [|discriminate].
      intros _. exists a. now split.
  - split; [simpl; lia|]. split; [congruence|].
    intros (a' & Ha & _). discriminate Ha.
Qed.

End TickLog.

(** ** Line framing *)

Section FramingFacts.
Import Framing.
Local Open Scope string_scope.

Lemma string_app_assoc (a b c : string) : (a ++ b) ++ c = a ++ (b ++ c).
Proof.
  induction a as [|x a IH]; [reflexivity|].
  change (String x ((a ++ b) ++ c) = String x (a ++ (b ++ c))).
  f_equal. exact IH.
Qed.

Lemma split_newline_nonempty s : split_newline s <> [].
Proof.
  destruct s as [|c r]; simpl; [discriminate|].
  destruct (Ascii.eqb c newline); [discriminate|].
  destruct (split_newline r); discriminate.
Qed.

Lemma pop_snoc (l : list string) :
  l <> [] -> l = (fst (pop l) ++ [snd (pop l)])%list.
Proof.
  induction l as [|x l IH]; [congruence|]. intros _.
  destruct l as [|y l]; [reflexivity|].
  change (pop (x :: y :: l))
    with (let '(init, z) := pop (y :: l) in (x :: init, z)).
  destruct (pop (y :: l)) as [init z] eqn:E. simpl.
  rewrite (IH ltac:(discriminate)) at 1. reflexivity.
Qed.

Lemma pop_app (l m : list string) :
  m <> [] -> pop (l ++ m)%list = ((l ++ fst (pop m))%list, snd (pop m)).
Proof.
  intros Hm. induction l as [|x l IH]; simpl app.
  - now destruct (pop m).
  - destruct (l ++ m)%list as [|y lm] eqn:E.
    + destruct l; [simpl in E; congruence|discriminate].
    + change (pop (x :: y :: lm))
        with (let '(init, z) := pop (y :: lm) in (x :: init, z)).
      rewrite IH. reflexivity.
Qed.

Lemma split_newline_app s t :
  split_newline (s ++ t) =
    (fst (pop (split_newline s))
       ++ split_newline (snd (pop (split_newline s)) ++ t))%list.
Proof.
  induction s as [|c r IH]; [reflexivity|].
  change (String c r ++ t) with (String c (r ++ t)).
  cbn [split_newline]. destruct (Ascii.eqb c newline) eqn:Ec.
  - rewrite IH.
    destruct (split_newline r) as [|h tl] eqn:E;
      [now apply split_newline_nonempty in E|].
    change (pop ("" :: h :: tl))
      with (let '(init, z) := pop (h :: tl) in ("" :: init, z)).
    now destruct (pop (h :: tl)).
  - rewrite IH.
    destruct (split_newline r) as [|h tl] eqn:E;
      [now apply split_newline_nonempty in E|].
    destruct tl as [|x tl].
    + cbn [pop fst snd app].
      change (String c h ++ t) with (String c (h ++ t)).
      cbn [split_newline]. now rewrite Ec.
    + change (pop (h :: x :: tl))
        with (let '(init, z) := pop (x :: tl) in (h :: init, z)).
      change (pop (String c h :: x :: tl))
        with (let '(init, z) := pop (x :: tl) in (String c h :: init, z)).
      now destruct (pop (x :: tl)).
Qed.

End FramingFacts.

Section FramingTheorems.
Import Framing.
Local Open Scope string_scope.

Lemma frame_app buffer c1 c2 :
  frame buffer (c1 ++ c2) =
    ((fst (frame buffer c1) ++ fst (frame (snd (frame buffer c1)) c2))%list,
     snd (frame (snd (frame buffer c1)) c2)).
Proof.
  unfold frame. rewrite <- string_app_assoc, split_newline_app.
  apply pop_app, split_newline_nonempty.
Qed.

(** How the response is cut into chunks does not matter: handling two
    chunks one after the other leaves the same buffer and the same handler
    state as handling their concatenation at once. *)
Theorem onData_chunks {S : Type} (handleLine : S -> string -> S)
    (st : string * S) (c1 c2 : string) :
  onData handleLine (onData handleLine st c1) c2
  = onData handleLine st (c1 ++ c2).
Proof.
  unfold onData at 1 3. rewrite frame_app.
  unfold onData.
  destruct (frame (fst st) c1) as [l1 b1]. cbn [fst snd].
  destruct (frame b1 c2) as [l2 b2]. cbn [fst snd].
  now rewrite fold_left_app.
Qed.

Lemma join_split s : join_newline (split_newline s) = s.
Proof.
  induction s as [|c r IH]; [reflexivity|].
  cbn [split_newline]. destruct (Ascii.eqb_spec c newline) as [->|Hc].
  - destruct (split_newline r) as [|h tl] eqn:E;
      [now apply split_newline_nonempty in E|].
    change (join_newline ("" :: h :: tl))
      with ("" ++ String newline (join_newline (h :: tl))).
    now rewrite IH.
  - destruct (split_newline r) as [|h tl] eqn:E;
      [now apply split_newline_nonempty in E|].
    destruct tl as [|x tl].
    + simpl in IH. subst r. reflexivity.
    + change (join_newline (String c h :: x :: tl))
        with (String c h ++ String newline (join_newline (x :: tl))).
      change (join_newline (h :: x :: tl))
        with (h ++ String newline (join_newline (x :: tl))) in IH.
      now rewrite <- IH.
Qed.

Lemma split_pieces_clean s :
  Forall (λ l, has_newline l = false) (split_newline s).
Proof.
  induction s as [|c r IH]; [repeat constructor|].
  cbn [split_newline]. destruct (Ascii.eqb c newline) eqn:Ec.
  - now constructor.
  - destruct (split_newline r) as [|h tl]; [repeat constructor; simpl; now rewrite Ec|].
    apply Forall_cons in IH as [Hh Htl]. constructor; [|exact Htl].
    simpl. now rewrite Ec, Hh.
Qed.

(** Framing loses nothing and cuts only at line feeds: the lines handed
    over, followed by the new buffer, joined with line feeds, give back the
    old buffer followed by the chunk; no line and no buffer contains a line
    feed. *)
Theorem frame_round_trip buffer chunk :
  join_newline (fst (frame buffer chunk) ++ [snd (frame buffer chunk)])%list
    = buffer ++ chunk /\
  Forall (λ l, has_newline l = false) (fst (frame buffer chunk)) /\
  has_newline (snd (frame buffer chunk)) = false.
Proof.
  unfold frame.
  pose proof (pop_snoc (split_newline (buffer ++ chunk))
                (split_newline_nonempty _)) as Hp.
  pose proof (split_pieces_clean (buffer ++ chunk)) as Hc.
  rewrite Hp in Hc. apply Forall_app in Hc as [Hl Hb].
  apply Forall_cons in Hb as [Hb _].
  split; [|now split].
  rewrite <- Hp. apply join_split.
Qed.

End FramingTheorems.

(** ** The webhook scanner *)

Section Webhook.
Import WebhookScanner.

Lemma riskManagement_risk direction entryPrice hi lo :
  0 < entryPrice ->
  let lv := riskManagement direction entryPrice hi lo in
  ((1 # 100000) < risk lv \/ risk lv = entryPrice * (5 # 10000)) /\
  0 < risk lv /\
  tp1 lv = match direction with
           | BUY => entryPrice + risk lv * (15 # 10)
           | SELL => entryPrice - risk lv * (15 # 10)
           end /\
  tp2 lv = match direction with
           | BUY => entryPrice + risk lv * 2
           | SELL => entryPrice - risk lv * 2
           end /\
  tp3 lv = match direction with
           | BUY => entryPrice + risk lv * 3
           | SELL => entryPrice - risk lv * 3
           end /\
  match direction with
  | BUY => stopLoss lv < entryPrice
  | SELL => entryPrice < stopLoss lv
  end.
Proof.
  intros Hpos lv. subst lv. unfold riskManagement.
  destruct direction.
  - destruct (Qle_bool entryPrice lo) eqn:El;
      match goal with
      | |- context [Qle_bool ?r (1 # 100000)] =>
          destruct (Qle_bool r (1 # 100000)) eqn:E
      end; cbn [risk tp1 tp2 tp3 stopLoss];
      try (apply not_true_iff_false in E; rewrite Qle_bool_iff in E;
           apply Qnot_le_lt in E);
      try (apply not_true_iff_false in El; rewrite Qle_bool_iff in El;
           apply Qnot_le_lt in El);
      (split; [first [left; lra | right; reflexivity]|]);
      (split; [lra|]); do 3 (split; [reflexivity|]); lra.
  - destruct (Qle_bool hi entryPrice) eqn:El;
      match goal with
      | |- context [Qle_bool ?r (1 # 100000)] =>
          destruct (Qle_bool r (1 # 100000)) eqn:E
      end; cbn [risk tp1 tp2 tp3 stopLoss];
      try (apply not_true_iff_false in E; rewrite Qle_bool_iff in E;
           apply Qnot_le_lt in E);
      try (apply not_true_iff_false in El; rewrite Qle_bool_iff in El;
           apply Qnot_le_lt in El);
      (split; [first [left; lra | right; reflexivity]|]);
      (split; [lra|]); do 3 (split; [reflexivity|]); lra.
Qed.

(** For a positive entry price the webhook scanner's levels are on the
    right sides and in order before rounding: a BUY has
    stopLoss <= entry <= tp1 <= tp2 <= tp3, a SELL the mirror image, and the
    risk behind the targets is never negative. *)
Theorem riskManagement_ordered direction entryPrice hi lo :
  0 < entryPrice ->
  let lv := riskManagement direction entryPrice hi lo in
  0 <= risk lv /\
  match direction with
  | BUY => stopLoss lv <= entryPrice /\ entryPrice <= tp1 lv /\
           tp1 lv <= tp2 lv /\ tp2 lv <= tp3 lv
  | SELL => entryPrice <= stopLoss lv /\ tp1 lv <= entryPrice /\
            tp2 lv <= tp1 lv /\ tp3 lv <= tp2 lv
  end.
Proof.
  intros Hpos lv.
  destruct (riskManagement_risk direction entryPrice hi lo Hpos)
    as (_ & Hr & H1 & H2 & H3 & Hs).
  fold lv in Hr, H1, H2, H3, Hs.
  split; [lra|].
  rewrite H1, H2, H3. destruct direction; repeat split; lra.
Qed.

Lemma riskManagement_ordered_witness :
  let lv := riskManagement BUY (11 # 10) (12 # 10) (11 # 10) in
  0 < (11 # 10) /\ stopLoss lv <= (11 # 10) /\ (11 # 10) <= tp1 lv.
Proof.
  intros lv. split; [reflexivity|].
  destruct (riskManagement_ordered BUY (11 # 10) (12 # 10) (11 # 10))
    as (_ & Hs & H1 & _); [reflexivity|].
  split; [exact Hs|exact H1].
Defined.

End Webhook.

Section WebhookProcess.
Import WebhookScanner SignalEngine.

Lemma truthy_true x : truthy x = true <-> ~ x == 0.
Proof.
  unfold truthy. rewrite negb_true_iff, <- not_true_iff_false, Qeq_bool_iff.
  tauto.
Qed.

Lemma optionalNumber_some o x :
  optionalNumber o = Some x <-> o = Some x /\ ~ x == 0.
Proof.
  unfold optionalNumber. destruct o as [y|]; [|split; [discriminate|tauto]].
  destruct (truthy y) eqn:E.
  - apply truthy_true in E. split; [intros [= <-]; now split|tauto].
  - split; [discriminate|]. intros [[= <-] Hx].
    apply truthy_true in Hx. congruence.
Qed.

Lemma optionalNumber_none o :
  optionalNumber o = None <-> o = None \/ exists x, o = Some x /\ x == 0.
Proof.
  unfold optionalNumber. destruct o as [y|].
  - destruct (truthy y) eqn:E.
    + apply truthy_true in E. split; [discriminate|].
      intros [?|(x & [= <-] & Z)]; [discriminate|contradiction].
    + apply not_true_iff_false in E. rewrite truthy_true in E.
      split; [|reflexivity]. intros _. right. exists y. split; [reflexivity|].
      destruct (Qeq_dec y 0); tauto.
  - split; [now left|reflexivity].
Qed.

Lemma trendOf_cases data c tr :
  trendOf data c = Some tr ->
  tr = "UPTREND"%string \/ tr = "DOWNTREND"%string.
Proof.
  unfold trendOf. repeat case_match; intros [= <-]; tauto.
Qed.

(** What [process] returns as a signal. *)
Lemma process_signal data s :
  process data = Signal s ->
  exists e tr,
    close data = Some e /\ symbol data <> ""%string /\ ~ e == 0 /\
    trendOf data e = Some tr /\ reversal_signal data = true /\
    let direction := if String.eqb tr "UPTREND" then BUY else SELL in
    let lv := riskManagement direction e (high data) (low data) in
    s_symbol s = symbol data /\ s_trend s = tr /\ s_signal s = direction /\
    s_entry_price s = round5 e /\ s_stop_loss s = round5 (stopLoss lv) /\
    s_tp1 s = round5 (tp1 lv) /\ s_tp2 s = round5 (tp2 lv) /\
    s_tp3 s = round5 (tp3 lv) /\
    s_strength_score s =
      match optionalNumber (sma20 data), optionalNumber (sma200 data) with
      | Some _, Some _ => 90%Z
      | _, _ => 80%Z
      end.
Proof.
  unfold process. destruct (close data) as [e|]; [|discriminate].
  destruct (String.eqb_spec (symbol data) "") as [|Hsym]; [discriminate|].
  destruct (truthy e) eqn:Ht; [|discriminate]. cbn [negb orb].
  destruct (trendOf data e) as [tr|] eqn:Htr; [|discriminate].
  destruct (reversal_signal data); [|discriminate]. cbn [negb].
  intros [= <-]. exists e, tr. apply truthy_true in Ht.
  split; [reflexivity|]. split; [exact Hsym|]. split; [exact Ht|].
  split; [exact Htr|]. split; [reflexivity|].
  cbv zeta. cbn. repeat split.
Qed.

(** [process] answers with a signal only for an alert that names a symbol,
    has a non-zero close and sets the reversal flag; the direction follows
    the trend (BUY for UPTREND, SELL for DOWNTREND).  When both moving
    averages are given (and non-zero) the strength is 90 and a BUY needs
    close > SMA200 and SMA20 > SMA200, a SELL the reverse.  When one of
    them is missing or zero the strength is 80 and the direction comes from
    the alert's own [trend] text: a BUY needs "BUY" or "UP" in its upper
    case form, a SELL needs neither of these and "SELL" or "DOWN". *)
Theorem process_gate data s :
  process data = Signal s ->
  symbol data <> ""%string /\ reversal_signal data = true /\
  (exists e, close data = Some e /\ ~ e == 0 /\ s_entry_price s = round5 e /\
     forall s20 s200,
       sma20 data = Some s20 -> sma200 data = Some s200 ->
       ~ s20 == 0 -> ~ s200 == 0 ->
       s_strength_score s = 90%Z /\
       (s_signal s = BUY -> s200 < e /\ s200 < s20) /\
       (s_signal s = SELL -> e < s200 /\ s20 < s200)) /\
  ((s_signal s = BUY /\ s_trend s = "UPTREND"%string) \/
   (s_signal s = SELL /\ s_trend s = "DOWNTREND"%string)) /\
  (sma20 data = None \/ sma200 data = None \/
   (exists x, sma20 data = Some x /\ x == 0) \/
   (exists x, sma200 data = Some x /\ x == 0) ->
   s_strength_score s = 80%Z /\
   exists tr, trend data = Some tr /\
     let up := BinanceStreamer.toUpperCase tr in
     (s_signal s = BUY ->
      includes up "BUY" || includes up "UP" = true) /\
     (s_signal s = SELL ->
      includes up "BUY" || includes up "UP" = false /\
      includes up "SELL" || includes up "DOWN" = true)).
Proof.
  intros H.
  destruct (process_signal data s H)
    as (e & tr & Hc & Hsym & He & Htr & Hrev & Hs).
  cbv zeta in Hs.
  destruct Hs as (_ & Ht & Hd & Hen & _ & _ & _ & _ & Hsc).
  split; [exact Hsym|]. split; [exact Hrev|]. split; [|split].
  - exists e. split; [exact Hc|]. split; [exact He|]. split; [exact Hen|].
    intros s20 s200 H20 H200 N20 N200.
    assert (O20 : optionalNumber (sma20 data) = Some s20)
      by (apply optionalNumber_some; now split).
    assert (O200 : optionalNumber (sma200 data) = Some s200)
      by (apply optionalNumber_some; now split).
    rewrite O20, O200 in Hsc. split; [exact Hsc|].
    unfold trendOf in Htr. rewrite O20, O200 in Htr.
    destruct (Qgtb e s200 && Qgtb s20 s200) eqn:Up.
    + injection Htr as <-. rewrite Hd. simpl.
      apply andb_true_iff in Up as [U1 U2].
      apply Qgtb_gt in U1. apply Qgtb_gt in U2.
      split; [tauto|discriminate].
    + destruct (Qltb e s200 && Qltb s20 s200) eqn:Down; [|discriminate].
      injection Htr as <-. rewrite Hd. simpl.
      apply andb_true_iff in Down as [D1 D2].
      apply Qltb_lt in D1. apply Qltb_lt in D2.
      split; [discriminate|tauto].
  - rewrite Hd, Ht.
    destruct (trendOf_cases data e tr Htr) as [-> | ->]; simpl; tauto.
  - intros Hmiss.
    assert (Hnone : optionalNumber (sma20 data) = None \/
                    optionalNumber (sma200 data) = None).
    { destruct Hmiss as [E|[E|[(x & E & Z)|(x & E & Z)]]].
      - left. now rewrite E.
      - right. now rewrite E.
      - left. apply optionalNumber_none. right. now exists x.
      - right. apply optionalNumber_none. right. now exists x. }
    assert (Hfall :
      s_strength_score s = 80%Z /\
      match trend data with
      | Some t =>
          if String.eqb t "" then None
          else
            let up := BinanceStreamer.toUpperCase t in
            if includes up "BUY" || includes up "UP" then Some "UPTREND"%string
            else if includes up "SELL" || includes up "DOWN"
            then Some "DOWNTREND"%string
            else None
      | None => None
      end = Some tr).
    { unfold trendOf in Htr.
      destruct Hnone as [E|E]; rewrite E in Hsc, Htr.
      - split; [exact Hsc|exact Htr].
      - destruct (optionalNumber (sma20 data)); split;
          solve [exact Hsc | exact Htr]. }
    destruct Hfall as [H80 Hfall]. split; [exact H80|].
    destruct (trend data) as [t|]; [|discriminate].
    exists t. split; [reflexivity|]. cbv zeta in Hfall |- *.
    destruct (String.eqb t ""); [discriminate|].
    destruct (includes (BinanceStreamer.toUpperCase t) "BUY"
              || includes (BinanceStreamer.toUpperCase t) "UP") eqn:Up.
    + injection Hfall as <-. rewrite Hd. simpl.
      split; [reflexivity|discriminate].
    + destruct (includes (BinanceStreamer.toUpperCase t) "SELL"
                || includes (BinanceStreamer.toUpperCase t) "DOWN") eqn:Down;
        [|discriminate].
      injection Hfall as <-. rewrite Hd. simpl.
      split; [discriminate|]. intros _. split; reflexivity.
Qed.

Lemma process_gate_witness :
  exists s,
    process (mkPayload "EURUSD" (Some (11 # 10)) (12 # 10) (109 # 100)
               (Some (108 # 100)) (Some 1) None true None) = Signal s /\
    s_signal s = BUY /\ s_strength_score s = 90%Z.
Proof.
  destruct (process (mkPayload "EURUSD" (Some (11 # 10)) (12 # 10) (109 # 100)
                       (Some (108 # 100)) (Some 1) None true None))
    as [m|sym r|s] eqn:E; try (vm_compute in E; discriminate E).
  exists s. split; [reflexivity|].
  destruct (process_gate _ s E) as (_ & _ & (e & Hc & _ & _ & Hsma) & Hdir & _).
  destruct (Hsma (108 # 100) 1) as (H90 & _); try reflexivity;
    try (vm_compute; discriminate).
  split; [|exact H90].
  destruct Hdir as [[Hb _]|[Hsell _]]; [exact Hb|].
  vm_compute in E. injection E as <-. discriminate Hsell.
Defined.



(** [process] rejects exactly the alerts without a symbol or without a
    close; a close of 0 counts as missing. *)
Theorem process_error_iff data :
  (exists m, process data = Error m) <->
  symbol data = ""%string \/ close data = None \/
  (exists e, close data = Some e /\ e == 0).
Proof.
  unfold process. destruct (close data) as [e|].
  - destruct (String.eqb_spec (symbol data) "") as [Hs|Hs].
    + cbn [orb]. split; [intros _; now left|eauto].
    + cbn [orb]. destruct (truthy e) eqn:Ht; cbn [negb].
      * apply truthy_true in Ht. split.
        -- intros [m Hm]. repeat case_match; discriminate.
        -- intros [?|[?|(e' & [= <-] & He)]]; congruence.
      * split; [|eauto]. intros _. right. right. exists e. split; [reflexivity|].
        apply not_true_iff_false in Ht. rewrite truthy_true in Ht.
        destruct (Qeq_dec e 0); tauto.
  - split; [intros _; right; now left|eauto].
Qed.

End WebhookProcess.
